(** * The self-refreshing resource fetcher of [component/resource/fetcher.go]

    A shallow embedding of [Fetcher[V]]: the struct is a record, every
    method is a function in a small state monad over the fetcher and the
    world it talks to (clock, mirror file, source vehicle, watcher,
    goroutines), and every externally visible action is appended to a
    trace, in the order the code performs it. *)

From Stdlib Require Import ZArith NArith List Bool String Lia.
Import ListNotations.
Local Open Scope Z_scope.

(** ** Machine integers and the [time] package *)

Module Int64.
Definition min_int : Z := - 2 ^ 63.
Definition max_int : Z := 2 ^ 63 - 1.
(** Two's complement wrap-around of Go's [int64] arithmetic. *)
Definition wrap (z : Z) : Z := (z + 2 ^ 63) mod 2 ^ 64 - 2 ^ 63.
Definition sub (a b : Z) : Z := wrap (a - b).
Definition in_range (z : Z) : Prop := min_int <= z <= max_int.
End Int64.

Module time.
(** An instant, in nanoseconds from the Unix epoch; [time.Time] covers
    far more than an [int64] of nanoseconds, so instants are unbounded. *)
Definition Time := Z.
(** [time.Duration] is an [int64] count of nanoseconds. *)
Definition Duration := Z.
Definition Second : Duration := 1000000000.
(** The zero [time.Time] (January 1, year 1), the value of [updatedAt]
    in a fresh fetcher. *)
Definition zero : Time := - 62135596800 * Second.
(** [t.Sub(u)]: the difference, saturated to the range of [Duration]. *)
Definition Sub (t u : Time) : Duration :=
  if t - u <? Int64.min_int then Int64.min_int
  else if Int64.max_int <? t - u then Int64.max_int
  else t - u.
End time.
Import time.

Definition bytes := list Byte.byte.
Definition error := string.

(** [types.VehicleType] of [constant/provider]; the fetcher only ever
    compares it with [File]. *)
Inductive VehicleType := File | HTTP | Compatible | Inline.

Definition VehicleType_eqb (a b : VehicleType) : bool :=
  match a, b with
  | File, File | HTTP, HTTP | Compatible, Compatible | Inline, Inline => true
  | _, _ => false
  end.

Inductive LogLevel := Debug | Info | Warn | Error.

(** ** What the fetcher is generic in

    [V] with its zero value ([lo.Empty[V]()]), and the two packages the
    file imports without their source being part of it: [utils] (the
    fingerprint type with [MakeHash] and [Equal]) and [slowdown] (the
    backoff delay [ForAttempt]). *)

Class Params := {
  V : Type;
  Empty : V;
  HashType : Type;
  HashType_eq_dec : forall a b : HashType, {a = b} + {a <> b};
  zeroHash : HashType;
  MakeHash : bytes -> HashType;
  (** [Backoff.ForAttempt] for a backoff with the given [Min] and [Max]. *)
  ForAttempt : Duration -> Duration -> N -> Duration
}.

Section Model.
Context {P : Params}.

(** [HashType.Equal]: two fingerprints are equal when they are the same
    digest. *)
Definition Equal (a b : HashType) : bool :=
  if HashType_eq_dec a b then true else false.

(** A Go byte slice that may be [nil]; [MakeHash] hashes [nil] as the
    empty slice. *)
Definition slice := option bytes.
Definition contents_of (buf : slice) : bytes :=
  match buf with Some b => b | None => [] end.

(** *** The collaborators *)

Record ReadResult := {
  rr_buf : slice;
  rr_hash : HashType;
  rr_err : option error
}.

(** [types.Vehicle]: an interface; [v_Read k ctxDone old] is the answer of
    the [k]-th call of [Read(ctx, old)], [v_Write k buf] the outcome of the
    [k]-th call of [Write(buf)]. *)
Record Vehicle := {
  v_Type : VehicleType;
  v_Path : string;
  v_Read : nat -> bool -> HashType -> ReadResult;
  v_Write : nat -> bytes -> option error
}.

Definition Parser := bytes -> V * option error.

(** Modelled from the spec: [slowdown.Backoff], whose source is not part of
    the files at hand.  "[AddAttempt()] increments the counter; [Reset()]
    zeroes it"; the counter is the only mutable part. *)
Record Backoff := {
  Factor : Z;
  Jitter : bool;
  Min : Duration;
  Max : Duration;
  attempt : N
}.

Record Watcher := {
  started : bool;
  closed : bool
}.

Record Fetcher := {
  ctx : bool;                (* [true] once [ctxCancel] has been called *)
  name : string;
  vehicle : Vehicle;
  updatedAt : Time;
  hash : HashType;
  parser : Parser;
  interval : Duration;
  onUpdate : bool;           (* [false] for a [nil] callback *)
  watcher : option Watcher;
  backoff : Backoff
}.

(** *** The world *)

Inductive Event :=
| EvStat
| EvReadFile
| EvRead (ctxDone : bool) (old : HashType)
| EvParse (buf : bytes)
| EvWrite (buf : bytes)
| EvChtimes (atime mtime : Time)
| EvOnUpdate (contents : V)
| EvNewWatcher
| EvWatcherStart
| EvWatcherClose
| EvGo (forceUpdate : bool)
| EvNewTimer (d : Duration)
| EvTimerReset (d : Duration)
| EvCancel
| EvLog (lvl : LogLevel).

(** The file at [vehicle.Path()]: [m_data = None] is a file that [os.Stat]
    finds and [os.ReadFile] cannot read. *)
Record MirrorFile := {
  m_data : slice;
  m_modTime : Time
}.

(** One [pullLoop] goroutine. *)
Inductive PullLoop :=
| Spawned (forceUpdate : bool)
| Waiting (timerFired : bool)
| Returned.

Record World := {
  clock_reads : nat;
  vehicle_reads : nat;
  vehicle_writes : nat;
  mirror : option MirrorFile;
  loops : list PullLoop;
  trace : list Event
}.

(** The answers of the environment: the [k]-th reading of the clock and
    the outcome of setting up a watcher. *)
Record Env := {
  clock : nat -> Time;
  NewWatcher_err : option error;
  Start_err : option error
}.

Record State := {
  F : Fetcher;
  W : World
}.

(** *** Field updates *)

Definition with_updatedAt (t : Time) (f : Fetcher) : Fetcher :=
  {| ctx := ctx f; name := name f; vehicle := vehicle f; updatedAt := t;
     hash := hash f; parser := parser f; interval := interval f;
     onUpdate := onUpdate f; watcher := watcher f; backoff := backoff f |}.

Definition with_hash (h : HashType) (f : Fetcher) : Fetcher :=
  {| ctx := ctx f; name := name f; vehicle := vehicle f;
     updatedAt := updatedAt f; hash := h; parser := parser f;
     interval := interval f; onUpdate := onUpdate f; watcher := watcher f;
     backoff := backoff f |}.

Definition with_ctx (c : bool) (f : Fetcher) : Fetcher :=
  {| ctx := c; name := name f; vehicle := vehicle f;
     updatedAt := updatedAt f; hash := hash f; parser := parser f;
     interval := interval f; onUpdate := onUpdate f; watcher := watcher f;
     backoff := backoff f |}.

Definition with_watcher (w : option Watcher) (f : Fetcher) : Fetcher :=
  {| ctx := ctx f; name := name f; vehicle := vehicle f;
     updatedAt := updatedAt f; hash := hash f; parser := parser f;
     interval := interval f; onUpdate := onUpdate f; watcher := w;
     backoff := backoff f |}.

Definition with_attempt (n : N) (f : Fetcher) : Fetcher :=
  {| ctx := ctx f; name := name f; vehicle := vehicle f;
     updatedAt := updatedAt f; hash := hash f; parser := parser f;
     interval := interval f; onUpdate := onUpdate f; watcher := watcher f;
     backoff := {| Factor := Factor (backoff f); Jitter := Jitter (backoff f);
                   Min := Min (backoff f); Max := Max (backoff f);
                   attempt := n |} |}.

Definition with_trace (t : list Event) (w : World) : World :=
  {| clock_reads := clock_reads w; vehicle_reads := vehicle_reads w;
     vehicle_writes := vehicle_writes w; mirror := mirror w;
     loops := loops w; trace := t |}.

Definition with_clock_reads (k : nat) (w : World) : World :=
  {| clock_reads := k; vehicle_reads := vehicle_reads w;
     vehicle_writes := vehicle_writes w; mirror := mirror w;
     loops := loops w; trace := trace w |}.

Definition with_vehicle_reads (k : nat) (w : World) : World :=
  {| clock_reads := clock_reads w; vehicle_reads := k;
     vehicle_writes := vehicle_writes w; mirror := mirror w;
     loops := loops w; trace := trace w |}.

Definition with_vehicle_writes (k : nat) (w : World) : World :=
  {| clock_reads := clock_reads w; vehicle_reads := vehicle_reads w;
     vehicle_writes := k; mirror := mirror w;
     loops := loops w; trace := trace w |}.

Definition with_mirror (m : option MirrorFile) (w : World) : World :=
  {| clock_reads := clock_reads w; vehicle_reads := vehicle_reads w;
     vehicle_writes := vehicle_writes w; mirror := m;
     loops := loops w; trace := trace w |}.

Definition with_loops (l : list PullLoop) (w : World) : World :=
  {| clock_reads := clock_reads w; vehicle_reads := vehicle_reads w;
     vehicle_writes := vehicle_writes w; mirror := mirror w;
     loops := l; trace := trace w |}.

(** *** The monad *)

Definition M (A : Type) : Type := State -> A * State.

Definition ret {A} (a : A) : M A := fun s => (a, s).
Definition bind {A B} (m : M A) (k : A -> M B) : M B :=
  fun s => let (a, s') := m s in k a s'.

Notation "x <- m ;; k" := (bind m (fun x => k))
  (at level 61, m at next level, right associativity).
Notation "' pat <- m ;; k" := (bind m (fun x => match x with pat => k end))
  (at level 61, pat pattern, m at next level, right associativity).
Notation "m ;; k" := (bind m (fun _ => k))
  (at level 61, right associativity).

Definition getF : M Fetcher := fun s => (F s, s).
Definition modifyF (g : Fetcher -> Fetcher) : M unit :=
  fun s => (tt, {| F := g (F s); W := W s |}).
Definition getW : M World := fun s => (W s, s).
Definition modifyW (g : World -> World) : M unit :=
  fun s => (tt, {| F := F s; W := g (W s) |}).
Definition emit (e : Event) : M unit :=
  modifyW (fun w => with_trace (trace w ++ [e]) w).
Definition when (b : bool) (m : M unit) : M unit :=
  if b then m else ret tt.

Variable env : Env.

(** *** The packages the fetcher calls *)

Definition time_Now : M Time :=
  w <- getW ;;
  modifyW (with_clock_reads (S (clock_reads w))) ;;
  ret (clock env (clock_reads w)).

Definition time_Since (t : Time) : M Duration :=
  now <- time_Now ;;
  ret (Sub now t).

(** [os.Stat(path)]: the modification time of the mirror, if it exists. *)
Definition os_Stat : M (option Time) :=
  emit EvStat ;;
  w <- getW ;;
  ret (option_map m_modTime (mirror w)).

(** [os.ReadFile(path)]: [nil] when the file cannot be read. *)
Definition os_ReadFile : M slice :=
  emit EvReadFile ;;
  w <- getW ;;
  ret (match mirror w with Some m => m_data m | None => None end).

(** [os.Chtimes(path, atime, mtime)]: changes the timestamps of an existing
    file and nothing else. *)
Definition os_Chtimes (atime mtime : Time) : M unit :=
  emit (EvChtimes atime mtime) ;;
  modifyW (fun w =>
    with_mirror
      (option_map (fun m => {| m_data := m_data m; m_modTime := mtime |})
                  (mirror w)) w).

Definition vehicle_Read (old : HashType) : M ReadResult :=
  f <- getF ;;
  w <- getW ;;
  emit (EvRead (ctx f) old) ;;
  modifyW (with_vehicle_reads (S (vehicle_reads w))) ;;
  ret (v_Read (vehicle f) (vehicle_reads w) (ctx f) old).

(** [vehicle.Write(buf)]: a successful write leaves [buf] in the mirror,
    stamped with the time of the write. *)
Definition vehicle_Write (buf : bytes) : M (option error) :=
  f <- getF ;;
  w <- getW ;;
  emit (EvWrite buf) ;;
  modifyW (with_vehicle_writes (S (vehicle_writes w))) ;;
  match v_Write (vehicle f) (vehicle_writes w) buf with
  | Some e => ret (Some e)
  | None =>
      now <- time_Now ;;
      modifyW (with_mirror (Some {| m_data := Some buf; m_modTime := now |})) ;;
      ret None
  end.

Definition backoff_AddAttempt : M unit :=
  modifyF (fun f => with_attempt (N.succ (attempt (backoff f))) f).

Definition backoff_Reset : M unit :=
  modifyF (with_attempt 0%N).

Definition backoff_Attempt : M N :=
  f <- getF ;;
  ret (attempt (backoff f)).

Definition backoff_ForAttempt (n : N) : M Duration :=
  f <- getF ;;
  ret (ForAttempt (Min (backoff f)) (Max (backoff f)) n).

(** *** The update pipeline *)

Definition Result : Type := V * bool * option error.

Definition value_of (r : Result) : V := fst (fst r).
Definition unchanged_of (r : Result) : bool := snd (fst r).
Definition err_of (r : Result) : option error := snd r.

(** [loadBuf], lines 98-136.  The mutex is held from the first to the last
    line, so in this sequential model the body is one step. *)
Definition loadBuf (buf : slice) (h : HashType) (updateFile : bool)
  : M Result :=
  now <- time_Now ;;
  f <- getF ;;
  if Equal (hash f) h then
    when updateFile (os_Chtimes now now) ;;
    modifyF (with_updatedAt now) ;;
    backoff_Reset ;;
    ret (Empty, true, None)
  else
    match buf with
    | None => ret (Empty, true, None)
    | Some b =>
        emit (EvParse b) ;;
        let (contents, err) := parser f b in
        match err with
        | Some e =>
            backoff_AddAttempt ;;
            ret (Empty, false, Some e)
        | None =>
            backoff_Reset ;;
            werr <- (if updateFile then vehicle_Write b else ret None) ;;
            match werr with
            | Some e => ret (Empty, false, Some e)
            | None =>
                modifyF (with_updatedAt now) ;;
                modifyF (with_hash h) ;;
                when (onUpdate f) (emit (EvOnUpdate contents)) ;;
                ret (contents, false, None)
            end
        end
    end.

(** [Update], lines 85-92. *)
Definition Update : M Result :=
  f <- getF ;;
  r <- vehicle_Read (hash f) ;;
  match rr_err r with
  | Some e =>
      backoff_AddAttempt ;;
      ret (Empty, false, Some e)
  | None =>
      loadBuf (rr_buf r) (rr_hash r)
              (negb (VehicleType_eqb (v_Type (vehicle f)) File))
  end.

(** [SideUpdate], lines 94-96. *)
Definition SideUpdate (buf : slice) : M Result :=
  loadBuf buf (MakeHash (contents_of buf)) true.

(** [updateWithLog], lines 206-220: the error of [Update] is logged and
    dropped. *)
Definition updateWithLog : M unit :=
  '(_, same, err) <- Update ;;
  match err with
  | Some _ => emit (EvLog Error)
  | None => if same then emit (EvLog Debug) else emit (EvLog Info)
  end.

(** [updateCallback], lines 202-204. *)
Definition updateCallback (path : string) : M unit :=
  updateWithLog.

(** *** The refresh driver *)

(** [fswatch.NewWatcher] and the methods of the watcher it returns: an
    external package; a watcher delivers notifications from a successful
    [Start] until [Close]. *)
Definition fswatch_NewWatcher : M (option error) :=
  emit EvNewWatcher ;;
  match NewWatcher_err env with
  | Some e => modifyF (with_watcher None) ;; ret (Some e)
  | None =>
      modifyF (with_watcher (Some {| started := false; closed := false |})) ;;
      ret None
  end.

Definition watcher_Start : M (option error) :=
  emit EvWatcherStart ;;
  match Start_err env with
  | Some e => ret (Some e)
  | None =>
      modifyF (fun f =>
        with_watcher
          (option_map (fun w => {| started := true; closed := closed w |})
                      (watcher f)) f) ;;
      ret None
  end.

Definition watcher_Close : M unit :=
  emit EvWatcherClose ;;
  modifyF (fun f =>
    with_watcher
      (option_map (fun w => {| started := started w; closed := true |})
                  (watcher f)) f).

(** The [go] statement of line 197: a new goroutine, which has not run
    yet. *)
Definition go_pullLoop (forceUpdate : bool) : M unit :=
  emit (EvGo forceUpdate) ;;
  modifyW (fun w => with_loops (loops w ++ [Spawned forceUpdate]) w).

(** [startPullLoop], lines 181-200. *)
Definition startPullLoop (forceUpdate : bool) : M (option error) :=
  f <- getF ;;
  if VehicleType_eqb (v_Type (vehicle f)) File then
    err <- fswatch_NewWatcher ;;
    match err with
    | Some e => ret (Some e)
    | None =>
        err <- watcher_Start ;;
        match err with
        | Some e => ret (Some e)
        | None => ret None
        end
    end
  else if 0 <? interval f then
    go_pullLoop forceUpdate ;;
    ret None
  else ret None.

(** [pullLoop], lines 147-162: everything before the loop; the result is
    the duration given to [time.NewTimer]. *)
Definition pullLoop_enter (forceUpdate : bool) : M Duration :=
  f <- getF ;;
  since <- time_Since (updatedAt f) ;;
  let initialInterval := Int64.sub (interval f) since in
  let initialInterval :=
    if interval f <? initialInterval then interval f else initialInterval in
  when forceUpdate (emit (EvLog Warn) ;; updateWithLog) ;;
  attempt <- backoff_Attempt ;;
  initialInterval <-
    (if (0 <? attempt)%N then
       duration <- backoff_ForAttempt attempt ;;
       ret (if duration <? initialInterval then duration else initialInterval)
     else ret initialInterval) ;;
  emit (EvNewTimer initialInterval) ;;
  ret initialInterval.

(** [pullLoop], lines 166-174: the body of [case <-timer.C]; the result is
    the duration given to [timer.Reset]. *)
Definition pullLoop_tick : M Duration :=
  updateWithLog ;;
  f <- getF ;;
  let interval_ := interval f in
  attempt <- backoff_Attempt ;;
  interval_ <-
    (if (0 <? attempt)%N then
       duration <- backoff_ForAttempt attempt ;;
       ret (if duration <? interval_ then duration else interval_)
     else ret interval_) ;;
  emit (EvTimerReset interval_) ;;
  ret interval_.

(** *** The lifecycle *)

(** [Initial], lines 53-67: the block guarded by [fErr == nil].  It
    yields [Some] result when it returns from [Initial] and [None] when
    control leaves the block and falls through to line 69. *)
Definition Initial_local (modTime : Time) : M (option (V * option error)) :=
  buf <- os_ReadFile ;;
  '(contents, _, err) <- loadBuf buf (MakeHash (contents_of buf)) false ;;
  modifyF (with_updatedAt modTime) ;;
  match err with
  | None =>
      f <- getF ;;
      since <- time_Since modTime ;;
      err <- startPullLoop (interval f <? since) ;;
      match err with
      | Some e => ret (Some (Empty, Some e))
      | None => ret (Some (contents, None))
      end
  | Some _ => ret None
  end.

(** [Initial], lines 69-82: the fallback to the source. *)
Definition Initial_fallback : M (V * option error) :=
  '(contents, _, updateErr) <- Update ;;
  err <- startPullLoop false ;;
  match err with
  | Some e => ret (Empty, Some e)
  | None =>
      match updateErr with
      | Some e => ret (Empty, Some e)
      | None => ret (contents, None)
      end
  end.

(** [Initial], lines 52-83. *)
Definition Initial : M (V * option error) :=
  stat <- os_Stat ;;
  local <-
    match stat with
    | Some modTime => Initial_local modTime
    | None => ret None
    end ;;
  match local with
  | Some r => ret r
  | None => Initial_fallback
  end.

(** [Close], lines 138-144. *)
Definition Close : M (option error) :=
  modifyF (with_ctx true) ;;
  emit EvCancel ;;
  f <- getF ;;
  match watcher f with
  | Some _ => watcher_Close
  | None => ret tt
  end ;;
  ret None.

(** [NewFetcher], lines 222-243. *)
Definition NewFetcher (name : string) (interval : Duration)
    (vehicle : Vehicle) (parser : Parser) (onUpdate : bool) : Fetcher :=
  let minBackoff := 10 * Second in
  let minBackoff := if interval <? minBackoff then interval else minBackoff in
  {| ctx := false; name := name; vehicle := vehicle; updatedAt := time.zero;
     hash := zeroHash; parser := parser; interval := interval;
     onUpdate := onUpdate; watcher := None;
     backoff := {| Factor := 2; Jitter := false; Min := minBackoff;
                   Max := interval; attempt := 0 |} |}.

(** *** The background activities, one step at a time

    The goroutine of [pullLoop] and the notifications of the watcher run
    beside the caller.  An [Action] is one atomic step of one of them;
    [step] is [None] when the action cannot happen in the state.  The
    [select] of lines 165-177 takes any case that is ready. *)
Inductive Action :=
| CallInitial
| CallClose
| Notify                  (* the watcher calls [updateCallback] *)
| LoopStart (i : nat)     (* goroutine [i] runs up to its first [select] *)
| TimerFire (i : nat)     (* the timer of goroutine [i] expires *)
| SelectTimer (i : nat)   (* [case <-timer.C] *)
| SelectDone (i : nat).   (* [case <-f.ctx.Done()] *)

Fixpoint replace {A} (i : nat) (a : A) (l : list A) : list A :=
  match l, i with
  | [], _ => []
  | _ :: l', O => a :: l'
  | x :: l', S i' => x :: replace i' a l'
  end.

Definition set_loop (i : nat) (l : PullLoop) : M unit :=
  modifyW (fun w => with_loops (replace i l (loops w)) w).

Definition exec {A} (m : M A) (s : State) : State := snd (m s).

Definition watching (f : Fetcher) : bool :=
  match watcher f with
  | Some w => started w && negb (closed w)
  | None => false
  end.

Definition step (a : Action) (s : State) : option State :=
  match a with
  | CallInitial => Some (exec Initial s)
  | CallClose => Some (exec Close s)
  | Notify =>
      if watching (F s)
      then Some (exec (updateCallback (v_Path (vehicle (F s)))) s)
      else None
  | LoopStart i =>
      match nth_error (loops (W s)) i with
      | Some (Spawned forceUpdate) =>
          Some (exec (pullLoop_enter forceUpdate ;; set_loop i (Waiting false)) s)
      | _ => None
      end
  | TimerFire i =>
      match nth_error (loops (W s)) i with
      | Some (Waiting false) => Some (exec (set_loop i (Waiting true)) s)
      | _ => None
      end
  | SelectTimer i =>
      match nth_error (loops (W s)) i with
      | Some (Waiting true) =>
          Some (exec (pullLoop_tick ;; set_loop i (Waiting false)) s)
      | _ => None
      end
  | SelectDone i =>
      match nth_error (loops (W s)) i with
      | Some (Waiting _) =>
          if ctx (F s) then Some (exec (set_loop i Returned) s) else None
      | _ => None
      end
  end.

Fixpoint run (acts : list Action) (s : State) : option State :=
  match acts with
  | [] => Some s
  | a :: acts' =>
      match step a s with
      | Some s' => run acts' s'
      | None => None
      end
  end.

(** *** Reading states and traces *)

(** The answer the vehicle gives to the next [Read], and the state in
    which [Update] goes on after it: the read recorded and counted. *)
Definition answer_of (s : State) : ReadResult :=
  v_Read (vehicle (F s)) (vehicle_reads (W s)) (ctx (F s)) (hash (F s)).

Definition after_Read (s : State) : State :=
  exec (vehicle_Read (hash (F s))) s.

(** The outcome the vehicle gives to the next [Write] of [buf]. *)
Definition write_of (s : State) (buf : bytes) : option error :=
  v_Write (vehicle (F s)) (vehicle_writes (W s)) buf.

Definition is_OnUpdate (e : Event) : bool :=
  match e with EvOnUpdate _ => true | _ => false end.

Definition is_Read (e : Event) : bool :=
  match e with EvRead _ _ => true | _ => false end.

Definition is_Go (e : Event) : bool :=
  match e with EvGo _ => true | _ => false end.

(** The fields of the fetcher that no method assigns after
    [NewFetcher]. *)
Definition same_config (f f' : Fetcher) : Prop :=
  vehicle f' = vehicle f /\ parser f' = parser f
  /\ interval f' = interval f /\ onUpdate f' = onUpdate f
  /\ Min (backoff f') = Min (backoff f) /\ Max (backoff f') = Max (backoff f).

(** The buffer [Initial] loads from the mirror. *)
Definition mirror_buf (s : State) : slice :=
  match mirror (W s) with Some m => m_data m | None => None end.

(** The events of [startPullLoop forceUpdate] for fetcher [f]. *)
Definition start_events (f : Fetcher) (forceUpdate : bool) : list Event :=
  if VehicleType_eqb (v_Type (vehicle f)) File then
    EvNewWatcher ::
      match NewWatcher_err env with
      | Some _ => []
      | None => [EvWatcherStart]
      end
  else if 0 <? interval f then [EvGo forceUpdate]
  else [].

(** What the methods running in the background leave alone: the
    cancellation, the watcher and the goroutines. *)
Definition same_driver (s s' : State) : Prop :=
  ctx (F s') = ctx (F s)
  /\ watcher (F s') = watcher (F s)
  /\ loops (W s') = loops (W s).



(** The state after an event has been recorded. *)
Definition recorded (e : Event) (s : State) : State := exec (emit e) s.

End Model.

(** ** A concrete resource

    Values are integers, the fingerprint of a buffer is one more than its
    length (so distinct buffers can share a fingerprint and none has the
    zero fingerprint), and the backoff delay doubles from [Min] up to
    [Max]. *)
Module Demo.

#[local] Instance params : Params := {|
  V := Z;
  Empty := 0;
  HashType := Z;
  HashType_eq_dec := Z.eq_dec;
  zeroHash := 0;
  MakeHash := fun b => Z.of_nat (List.length b) + 1;
  ForAttempt := fun min max n => Z.min max (min * 2 ^ Z.of_N n)
|}.

Definition a : Byte.byte := Byte.x61.
Definition b : Byte.byte := Byte.x62.

(** The parser rejects the empty buffer and counts the [a]s of any
    other. *)
Definition parse : Parser := fun buf =>
  match buf with
  | [] => (0, Some "empty"%string)
  | _ => (Z.of_nat (List.length (filter (Byte.eqb a) buf)), None)
  end.

Definition answer (buf : bytes) : ReadResult :=
  {| rr_buf := Some buf; rr_hash := MakeHash buf; rr_err := None |}.

Definition failure : ReadResult :=
  {| rr_buf := None; rr_hash := zeroHash; rr_err := Some "unreachable"%string |}.

(** A remote source whose first read fails and which serves [aab] from
    then on; every write to the mirror succeeds. *)
Definition remote : Vehicle :=
  {| v_Type := HTTP; v_Path := "mirror"%string;
     v_Read := fun k _ _ => match k with O => failure | _ => answer [a; a; b] end;
     v_Write := fun _ _ => None |}.

(** The same source with a mirror that cannot be written. *)
Definition readonly : Vehicle :=
  {| v_Type := HTTP; v_Path := "mirror"%string;
     v_Read := fun _ _ _ => answer [a; a; b];
     v_Write := fun _ _ => Some "read-only"%string |}.

(** A remote source that always serves [aab] and whose mirror can be
    written. *)
Definition steady : Vehicle :=
  {| v_Type := HTTP; v_Path := "mirror"%string;
     v_Read := fun _ _ _ => answer [a; a; b];
     v_Write := fun _ _ => None |}.

Definition local : Vehicle :=
  {| v_Type := File; v_Path := "mirror"%string;
     v_Read := fun _ _ _ => answer [a; b];
     v_Write := fun _ _ => None |}.

(** The clock advances by one second per reading, from instant 100 s. *)
Definition env : Env :=
  {| clock := fun k => (100 + Z.of_nat k) * Second;
     NewWatcher_err := None; Start_err := None |}.

Definition minute : Duration := 60 * Second.

(** A mirror written one second before the clock starts, and one written
    at the epoch. *)
Definition mirror_fresh : option MirrorFile :=
  Some {| m_data := Some [a; b]; m_modTime := 99 * Second |}.


Definition world (m : option MirrorFile) : World :=
  {| clock_reads := 0; vehicle_reads := 0; vehicle_writes := 0;
     mirror := m; loops := []; trace := [] |}.

Definition fresh (v : Vehicle) (interval : Duration) (m : option MirrorFile)
  : State :=
  {| F := NewFetcher "demo"%string interval v parse true; W := world m |}.

(** The state [s] with fingerprint [h] stored and [n] failed attempts
    counted. *)
Definition holding (h : HashType) (n : N) (s : State) : State :=
  {| F := with_attempt n (with_hash h (F s)); W := W s |}.

(** The outcome of [SideUpdate] of [a] on a fresh fetcher. *)
Definition pushed_a : Result * State :=
  Eval vm_compute in SideUpdate env (Some [a]) (fresh steady minute None).

End Demo.

(** ** More ways to read the fetcher's states *)

Section Reading.
Context {P : Params}.
Variable env : Env.

(** The error [startPullLoop] returns for fetcher [f]. *)
Definition start_error (f : Fetcher) : option error :=
  if VehicleType_eqb (v_Type (vehicle f)) File then
    match NewWatcher_err env with
    | Some e => Some e
    | None => Start_err env
    end
  else None.

(** The events that change the mirror file or its timestamps. *)
Definition touches_mirror (e : Event) : bool :=
  match e with
  | EvWrite _ | EvChtimes _ _ => true
  | _ => false
  end.

(** The state [s] with the context cancelled. *)
Definition cancelled (s : State) : State :=
  {| F := with_ctx true (F s); W := W s |}.

(** What [loadBuf] reads of a state: the stored fingerprint, the parser,
    the callback, the vehicle, and the counters of the clock and of the
    writes. *)
Definition same_inputs (s1 s2 : State) : Prop :=
  hash (F s1) = hash (F s2)
  /\ parser (F s1) = parser (F s2)
  /\ onUpdate (F s1) = onUpdate (F s2)
  /\ vehicle (F s1) = vehicle (F s2)
  /\ clock_reads (W s1) = clock_reads (W s2)
  /\ vehicle_writes (W s1) = vehicle_writes (W s2).

(** What [loadBuf] may assign: fingerprint, timestamp, attempt counter
    and mirror. *)
Definition same_outputs (s1 s2 : State) : Prop :=
  hash (F s1) = hash (F s2)
  /\ updatedAt (F s1) = updatedAt (F s2)
  /\ attempt (backoff (F s1)) = attempt (backoff (F s2))
  /\ mirror (W s1) = mirror (W s2).

End Reading.

(** ** The adapter base of package [outbound]

    What follows the fetcher in [component/resource/fetcher.go], from line
    245 on: [Base], the connections that record the chain of adapters they
    went through, and the adapter that closes itself once. *)

Module Outbound.

(** [C.DNSPrefer] of [constant]. *)
Inductive DNSPrefer := DualStack | IPv4Only | IPv6Only | IPv4Prefer | IPv6Prefer.

(** [dialer.Option]: an option is the call that made it. *)
Inductive DialOption :=
| WithInterface (name : string)
| WithRoutingMark (mark : Z)
| WithOnlySingleStack (isIP4 : bool)
| WithPreferIPv4
| WithPreferIPv6
| WithTFO (tfo : bool)
| WithMPTCP (mpTcp : bool).

(** [C.AdapterType] is a small integer. *)
Definition AdapterType := N.

Record Base := {
  name : string;
  addr : string;
  iface : string;
  tp : AdapterType;
  udp : bool;
  xudp : bool;
  tfo : bool;
  mpTcp : bool;
  rmark : Z;
  id : string;
  prefer : DNSPrefer
}.

Record BaseOption := {
  opt_Name : string;
  opt_Addr : string;
  opt_Type : AdapterType;
  opt_UDP : bool;
  opt_XUDP : bool;
  opt_TFO : bool;
  opt_MPTCP : bool;
  opt_Interface : string;
  opt_RoutingMark : Z;
  opt_Prefer : DNSPrefer
}.

(** [NewBase], lines 445-458: every field from the option, [id] left
    empty. *)
Definition NewBase (opt : BaseOption) : Base :=
  {| name := opt_Name opt; addr := opt_Addr opt; tp := opt_Type opt;
     udp := opt_UDP opt; xudp := opt_XUDP opt; tfo := opt_TFO opt;
     mpTcp := opt_MPTCP opt; iface := opt_Interface opt;
     rmark := opt_RoutingMark opt; prefer := opt_Prefer opt;
     id := EmptyString |}.

Definition nonempty (s : string) : bool := negb (String.eqb s EmptyString).

(** [Base.Id], lines 289-295: the identifier is made on first use.  [uuid k] is the
    string of the [k]-th identifier [utils.NewUUIDV6] hands out; the result
    is the identifier, the base and the number of identifiers used. *)
Definition Id (uuid : nat -> string) (k : nat) (b : Base)
  : string * Base * nat :=
  if nonempty (id b) then (id b, b, k)
  else
    let b' :=
      {| name := name b; addr := addr b; iface := iface b; tp := tp b;
         udp := udp b; xudp := xudp b; tfo := tfo b; mpTcp := mpTcp b;
         rmark := rmark b; id := uuid k; prefer := prefer b |} in
    (id b', b', S k).

(** [Base.DialOptions], lines 376-406. *)
Definition DialOptions (b : Base) : list DialOption :=
  let opts := [] in
  let opts :=
    if nonempty (iface b) then opts ++ [WithInterface (iface b)] else opts in
  let opts :=
    if negb (rmark b =? 0) then opts ++ [WithRoutingMark (rmark b)]
    else opts in
  let opts :=
    match prefer b with
    | IPv4Only => opts ++ [WithOnlySingleStack true]
    | IPv6Only => opts ++ [WithOnlySingleStack false]
    | IPv4Prefer => opts ++ [WithPreferIPv4]
    | IPv6Prefer => opts ++ [WithPreferIPv6]
    | DualStack => opts
    end in
  let opts := if tfo b then opts ++ [WithTFO true] else opts in
  let opts := if mpTcp b then opts ++ [WithMPTCP true] else opts in
  opts.

(** [conn]: the connection itself is the transport's; what this file adds
    is the chain and the address of the adapter. *)
Record conn := {
  chain : list string;
  adapterAddr : string
}.

(** [NewConn c a], lines 505-510, for an adapter with name and address as
    given. *)
Definition NewConn (a_Name a_Addr : string) : conn :=
  {| chain := [a_Name]; adapterAddr := a_Addr |}.

(** [conn.AppendToChains a], lines 485-487, for an adapter named
    [a_Name]. *)
Definition AppendToChains (a_Name : string) (c : conn) : conn :=
  {| chain := chain c ++ [a_Name]; adapterAddr := adapterAddr c |}.

Definition Chains (c : conn) : list string := chain c.

(** [autoCloseProxyAdapter]: [closeOnce] has fired or not, the error it
    kept, whether the finalizer is still set, and how often the [Close] of
    the adapter inside has been called. *)
Record autoCloseProxyAdapter := {
  closeOnce : bool;
  closeErr : option error;
  finalizer : bool;
  inner_closes : nat
}.

(** [NewAutoCloseProxyAdapter], lines 632-639. *)
Definition NewAutoCloseProxyAdapter : autoCloseProxyAdapter :=
  {| closeOnce := false; closeErr := None; finalizer := true;
     inner_closes := 0 |}.

(** [autoCloseProxyAdapter.Close], lines 623-630; [inner k] is what the
    [k]-th [Close] of the adapter inside returns. *)
Definition autoClose (inner : nat -> option error)
    (p : autoCloseProxyAdapter) : option error * autoCloseProxyAdapter :=
  let p' :=
    if closeOnce p then p
    else {| closeOnce := true; closeErr := inner (inner_closes p);
            finalizer := false; inner_closes := S (inner_closes p) |} in
  (closeErr p', p').

(** [n] calls of [Close] in a row, with what each returned. *)
Fixpoint autoClose_times (inner : nat -> option error) (n : nat)
    (p : autoCloseProxyAdapter)
  : list (option error) * autoCloseProxyAdapter :=
  match n with
  | O => ([], p)
  | S n' =>
      let (e, p') := autoClose inner p in
      let (es, p'') := autoClose_times inner n' p' in
      (e :: es, p'')
  end.

End Outbound.

(** ** The Hysteria adapter of [adapter/outbound/hysteria.go]

    Go's [int] is taken at 64 bits, its width on the platforms with a
    64-bit word; [uint64(x)] of a negative [x] wraps around. *)

Module Hysteria.

Definition mbpsToBps : Z := 125000.
Definition DefaultStreamReceiveWindow : Z := 15728640.
Definition DefaultConnectionReceiveWindow : Z := 67108864.

Definition uint64 (z : Z) : Z := z mod 2 ^ 64.
Definition int_mul (a b : Z) : Z := Int64.wrap (a * b).

(** The fields of [HysteriaOption] that [Speed] and the settings below
    read. *)
Record HysteriaOption := {
  Server : string;
  Protocol : string;
  ObfsProtocol : string;
  Up : string;
  UpSpeed : Z;
  Down : string;
  DownSpeed : Z;
  SNI : string;
  ALPN : list string;
  ReceiveWindowConn : Z;
  ReceiveWindow : Z;
  DisableMTUDiscovery : bool;
  HopInterval : Z
}.

Section Speeds.

(** [StringToBps] of the same package, whose source is not at hand: a
    bandwidth in bytes per second, zero for a string it cannot read. *)
Variable StringToBps : string -> Z.

(** [HysteriaOption.Speed], lines 138-151. *)
Definition Speed (c : HysteriaOption) : Z * Z * option error :=
  let up := StringToBps (Up c) in
  if up =? 0 then
    (0, 0, Some ("invaild upload speed: " ++ Up c)%string)
  else
    let down := StringToBps (Down c) in
    if down =? 0 then
      (0, 0, Some ("invaild download speed: " ++ Down c)%string)
    else (up, down, None).

(** [NewHysteria], lines 230-239: the two speeds given to
    [core.NewClient], or the error returned. *)
Definition NewHysteria_speeds (option : HysteriaOption) : Z * Z + error :=
  let '(up, down, err) := Speed option in
  match err with
  | Some e => inr e
  | None =>
      let up :=
        if negb (UpSpeed option =? 0)
        then uint64 (int_mul (UpSpeed option) mbpsToBps) else up in
      let down :=
        if negb (DownSpeed option =? 0)
        then uint64 (int_mul (DownSpeed option) mbpsToBps) else down in
      inl (up, down)
  end.

End Speeds.

(** The receive windows of [quic.Config]. *)
Record Windows := {
  InitialStreamReceiveWindow : Z;
  MaxStreamReceiveWindow : Z;
  InitialConnectionReceiveWindow : Z;
  MaxConnectionReceiveWindow : Z
}.

(** [NewHysteria], lines 187-195 and 206-213: the windows as first set
    from the option, then the two [if option.ReceiveWindow == 0]
    blocks. *)
Definition NewHysteria_windows (option : HysteriaOption) : Windows :=
  let q :=
    {| InitialStreamReceiveWindow := uint64 (ReceiveWindowConn option);
       MaxStreamReceiveWindow := uint64 (ReceiveWindowConn option);
       InitialConnectionReceiveWindow := uint64 (ReceiveWindow option);
       MaxConnectionReceiveWindow := uint64 (ReceiveWindow option) |} in
  let q :=
    if ReceiveWindow option =? 0 then
      {| InitialStreamReceiveWindow := DefaultStreamReceiveWindow / 10;
         MaxStreamReceiveWindow := DefaultStreamReceiveWindow;
         InitialConnectionReceiveWindow := InitialConnectionReceiveWindow q;
         MaxConnectionReceiveWindow := MaxConnectionReceiveWindow q |}
    else q in
  let q :=
    if ReceiveWindow option =? 0 then
      {| InitialStreamReceiveWindow := InitialStreamReceiveWindow q;
         MaxStreamReceiveWindow := MaxStreamReceiveWindow q;
         InitialConnectionReceiveWindow :=
           DefaultConnectionReceiveWindow / 10;
         MaxConnectionReceiveWindow := DefaultConnectionReceiveWindow |}
    else q in
  q.





(** The built-in [copy(dst, src)]: the number of bytes copied and [dst]
    afterwards. *)
Definition copy (dst src : bytes) : nat * bytes :=
  let n := Nat.min (List.length dst) (List.length src) in
  (n, firstn n src ++ skipn n dst).

(** [hyPacketConn.ReadFrom(p)], lines 280-288, given what
    [UDPConn.ReadFrom] returned: the count, the address string that is
    parsed into [addr], the error, and [p] afterwards. *)
Definition ReadFrom (recv : bytes * string * option error) (p : bytes)
  : nat * option string * option error * bytes :=
  let '(b, addrStr, err) := recv in
  match err with
  | Some e => (O, None, Some e, p)
  | None =>
      let (n, p') := copy p b in
      (n, Some addrStr, None, p')
  end.

(** [hyPacketConn.WriteTo(p, addr)], lines 300-307, given what
    [UDPConn.WriteTo] returned. *)
Definition WriteTo (sent : option error) (p : bytes) : nat * option error :=
  match sent with
  | Some e => (O, Some e)
  | None => (List.length p, None)
  end.

End Hysteria.

(** ** More of the concrete resource *)

Module Fixtures.

#[local] Existing Instance Demo.params.

(** An environment in which no watcher can be created. *)
Definition env_nowatch : Env :=
  {| clock := clock Demo.env;
     NewWatcher_err := Some "too many open files"%string;
     Start_err := None |}.

(** A local file that cannot be read through its vehicle. *)
Definition broken_file : Vehicle :=
  {| v_Type := File; v_Path := "mirror"%string;
     v_Read := fun _ _ _ => Demo.failure;
     v_Write := fun _ _ => None |}.

(** The state [s] with a started watcher. *)
Definition watched (s : State) : State :=
  {| F := with_watcher (Some {| started := true; closed := false |}) (F s);
     W := W s |}.

(** A second fetcher over the world that [SideUpdate] of [a] left. *)
Definition second : State :=
  {| F := NewFetcher "second"%string Demo.minute Demo.steady Demo.parse false;
     W := W (snd Demo.pushed_a) |}.

End Fixtures.

(** ** Proof steps shared by all that follows *)

(** Unfolding of the monad and of the calls into the environment; the
    methods of the fetcher themselves are unfolded by name where a proof
    looks inside one. *)
Ltac unfold_monad :=
  unfold recorded, exec, when, emit, modifyW, modifyF, getW, getF, bind, ret
    in *.

Ltac unfold_calls :=
  unfold time_Since, time_Now, os_Stat, os_ReadFile, os_Chtimes,
    vehicle_Read, vehicle_Write, backoff_AddAttempt, backoff_Reset,
    backoff_Attempt, backoff_ForAttempt, fswatch_NewWatcher, watcher_Start,
    watcher_Close, go_pullLoop, set_loop in *.

Ltac split_all := repeat match goal with |- _ /\ _ => split end.

Ltac close_field :=
  first [ reflexivity | assumption | discriminate
        | intros; assumption | intros; discriminate
        | rewrite <- ?app_assoc, ?app_nil_r; reflexivity ].

#[local] Arguments updateWithLog : simpl never.
#[local] Arguments Update : simpl never.
#[local] Arguments loadBuf : simpl never.
#[local] Arguments startPullLoop : simpl never.
#[local] Arguments Initial_local : simpl never.
#[local] Arguments Initial_fallback : simpl never.

(** ** Properties of the update pipeline *)

Section Pipeline.
Context {P : Params} (env : Env).

Lemma Equal_true (x y : HashType) : Equal x y = true <-> x = y.
Proof. unfold Equal. destruct (HashType_eq_dec x y); split; congruence. Qed.

Lemma Equal_refl (x : HashType) : Equal x x = true.
Proof. now apply Equal_true. Qed.

Lemma after_Read_F (s : State) : F (after_Read s) = F s.
Proof. reflexivity. Qed.

Lemma after_Read_trace (s : State) :
  trace (W (after_Read s)) = trace (W s) ++ [EvRead (ctx (F s)) (hash (F s))].
Proof. reflexivity. Qed.

Lemma after_Read_clock (s : State) :
  clock_reads (W (after_Read s)) = clock_reads (W s).
Proof. reflexivity. Qed.

Lemma after_Read_mirror (s : State) :
  mirror (W (after_Read s)) = mirror (W s).
Proof. reflexivity. Qed.

Lemma Update_read_ok (s : State) :
  rr_err (answer_of s) = None ->
  Update env s =
    loadBuf env (rr_buf (answer_of s)) (rr_hash (answer_of s))
            (negb (VehicleType_eqb (v_Type (vehicle (F s))) File))
            (after_Read s).
Proof.
  intros Hok. unfold Update, answer_of in *. unfold_calls. unfold_monad.
  cbn. rewrite Hok. reflexivity.
Qed.

Lemma Update_read_failed (s : State) (e : error) :
  rr_err (answer_of s) = Some e ->
  Update env s =
    (Empty, false, Some e,
     {| F := with_attempt (N.succ (attempt (backoff (F s)))) (F s);
        W := W (after_Read s) |}).
Proof.
  intros Hko. unfold Update, answer_of in *. unfold_calls. unfold_monad.
  cbn. rewrite Hko. reflexivity.
Qed.

Lemma loadBuf_same (s : State) (buf : slice) (h : HashType) (updateFile : bool) :
  Equal (hash (F s)) h = true ->
  forall (r : Result) (s' : State),
    loadBuf env buf h updateFile s = (r, s') ->
    let now := clock env (clock_reads (W s)) in
    r = (Empty, true, None)
    /\ updatedAt (F s') = now
    /\ attempt (backoff (F s')) = 0%N
    /\ hash (F s') = hash (F s)
    /\ trace (W s') =
         trace (W s) ++ (if updateFile then [EvChtimes now now] else [])
    /\ option_map m_data (mirror (W s')) = option_map m_data (mirror (W s)).
Proof.
  intros Heq r s' Hrun now.
  unfold loadBuf in *. unfold_calls. unfold_monad. cbn in *.
  rewrite Heq in *.
  destruct updateFile; cbn in *; inversion Hrun; subst; cbn.
  all: split_all; try reflexivity.
  all: try (rewrite app_nil_r; reflexivity).
  destruct (mirror (W s)); reflexivity.
Qed.

Lemma loadBuf_same_any_buffer (s : State) (buf buf' : slice) (h : HashType)
    (updateFile : bool) :
  Equal (hash (F s)) h = true ->
  loadBuf env buf' h updateFile s = loadBuf env buf h updateFile s.
Proof.
  intros Heq. unfold loadBuf. unfold_calls. unfold_monad. cbn.
  rewrite Heq. reflexivity.
Qed.

(** [loadBuf] leaves in one of five ways. *)
Lemma loadBuf_cases (s : State) (buf : slice) (h : HashType)
    (updateFile : bool) (r : Result) (s' : State) :
  loadBuf env buf h updateFile s = (r, s') ->
  let now := clock env (clock_reads (W s)) in
  (* line 109: the fingerprint is the stored one *)
  (Equal (hash (F s)) h = true
   /\ r = (Empty, true, None)
   /\ F s' = with_attempt 0 (with_updatedAt now (F s))
   /\ trace (W s') =
        trace (W s) ++ (if updateFile then [EvChtimes now now] else []))
  (* line 113: no buffer *)
  \/ (Equal (hash (F s)) h = false /\ buf = None
      /\ r = (Empty, true, None)
      /\ F s' = F s
      /\ trace (W s') = trace (W s)
      /\ mirror (W s') = mirror (W s))
  (* line 119: the parser fails *)
  \/ (exists b c e,
        Equal (hash (F s)) h = false /\ buf = Some b
        /\ parser (F s) b = (c, Some e)
        /\ r = (Empty, false, Some e)
        /\ F s' = with_attempt (N.succ (attempt (backoff (F s)))) (F s)
        /\ trace (W s') = trace (W s) ++ [EvParse b]
        /\ mirror (W s') = mirror (W s))
  (* line 125: the mirror cannot be written *)
  \/ (exists b c e,
        Equal (hash (F s)) h = false /\ buf = Some b
        /\ parser (F s) b = (c, None)
        /\ updateFile = true /\ write_of s b = Some e
        /\ r = (Empty, false, Some e)
        /\ F s' = with_attempt 0 (F s)
        /\ trace (W s') = trace (W s) ++ [EvParse b; EvWrite b]
        /\ mirror (W s') = mirror (W s))
  (* line 135: the new contents are committed *)
  \/ (exists b c,
        Equal (hash (F s)) h = false /\ buf = Some b
        /\ parser (F s) b = (c, None)
        /\ (updateFile = true -> write_of s b = None)
        /\ r = (c, false, None)
        /\ F s' = with_hash h (with_updatedAt now (with_attempt 0 (F s)))
        /\ trace (W s') =
             trace (W s) ++ EvParse b ::
               (if updateFile then [EvWrite b] else []) ++
               (if onUpdate (F s) then [EvOnUpdate c] else [])).
Proof.
  intros Hrun now. subst now.
  unfold loadBuf in Hrun. unfold_calls. unfold_monad. cbn in Hrun.
  destruct (Equal (hash (F s)) h) eqn:Heq.
  { left. destruct updateFile; cbn in Hrun; inversion Hrun; subst; cbn;
      split_all; close_field. }
  right. destruct buf as [b|]; cbn in Hrun.
  2: { left. inversion Hrun; subst. split_all; close_field. }
  right. unfold write_of.
  destruct (parser (F s) b) as [c [e|]] eqn:Hparse; cbn in Hrun.
  { left. exists b, c, e. inversion Hrun; subst; cbn.
    split_all; close_field. }
  right. destruct updateFile; cbn in Hrun.
  - destruct (v_Write (vehicle (F s)) (vehicle_writes (W s)) b) as [e|] eqn:Hw;
      cbn in Hrun.
    + left. exists b, c, e. inversion Hrun; subst; cbn.
      split_all; close_field.
    + right. exists b, c.
      destruct (onUpdate (F s)) eqn:Hcb; cbn in Hrun; inversion Hrun; subst;
        cbn; rewrite ?Hcb; split_all; close_field.
  - right. exists b, c.
    destruct (onUpdate (F s)) eqn:Hcb; cbn in Hrun; inversion Hrun; subst;
      cbn; rewrite ?Hcb; split_all; close_field.
Qed.

(** C1. A commit whose fingerprint equals the stored one reports
    "unchanged" without error, sets [updatedAt] to the current time, zeroes
    the attempt counter, keeps the fingerprint and calls neither the parser
    nor [onUpdate].  The buffer plays no part: any two buffers give the same
    outcome.  With the persist flag the only action is [os.Chtimes] on the
    mirror, whose contents stay as they were.  The same holds when the
    commit is reached through [SideUpdate] and through [Update]. *)
Theorem C1_same_fingerprint_is_unchanged :
  (forall (s : State) (buf : slice) (h : HashType) (updateFile : bool),
      Equal (hash (F s)) h = true ->
      forall (r : Result) (s' : State),
        loadBuf env buf h updateFile s = (r, s') ->
        let now := clock env (clock_reads (W s)) in
        r = (Empty, true, None)
        /\ updatedAt (F s') = now
        /\ attempt (backoff (F s')) = 0%N
        /\ hash (F s') = hash (F s)
        /\ trace (W s') =
             trace (W s) ++ (if updateFile then [EvChtimes now now] else [])
        /\ option_map m_data (mirror (W s')) = option_map m_data (mirror (W s))
        /\ (forall buf' : slice,
              loadBuf env buf' h updateFile s = loadBuf env buf h updateFile s))
  /\ (forall (s : State) (buf : slice),
        Equal (hash (F s)) (MakeHash (contents_of buf)) = true ->
        forall (r : Result) (s' : State),
          SideUpdate env buf s = (r, s') ->
          let now := clock env (clock_reads (W s)) in
          r = (Empty, true, None)
          /\ updatedAt (F s') = now
          /\ attempt (backoff (F s')) = 0%N
          /\ hash (F s') = hash (F s)
          /\ trace (W s') = trace (W s) ++ [EvChtimes now now]
          /\ option_map m_data (mirror (W s')) =
               option_map m_data (mirror (W s)))
  /\ (forall (s : State),
        let rr := v_Read (vehicle (F s)) (vehicle_reads (W s)) (ctx (F s))
                         (hash (F s)) in
        rr_err rr = None ->
        Equal (hash (F s)) (rr_hash rr) = true ->
        forall (r : Result) (s' : State),
          Update env s = (r, s') ->
          let now := clock env (clock_reads (W s)) in
          r = (Empty, true, None)
          /\ updatedAt (F s') = now
          /\ attempt (backoff (F s')) = 0%N
          /\ hash (F s') = hash (F s)
          /\ trace (W s') =
               trace (W s) ++ EvRead (ctx (F s)) (hash (F s)) ::
                 (if VehicleType_eqb (v_Type (vehicle (F s))) File
                  then [] else [EvChtimes now now])
          /\ option_map m_data (mirror (W s')) =
               option_map m_data (mirror (W s))).
Proof.
  split_all.
  - intros s buf h updateFile Heq r s' Hrun now.
    destruct (loadBuf_same s buf h updateFile Heq r s' Hrun)
      as (? & ? & ? & ? & ? & ?).
    split_all; try assumption.
    intros buf'. now apply loadBuf_same_any_buffer.
  - intros s buf Heq r s' Hrun now. unfold SideUpdate in Hrun.
    exact (loadBuf_same s buf _ true Heq r s' Hrun).
  - intros s rr Hok Heq r s' Hrun now.
    rewrite (Update_read_ok s Hok) in Hrun.
    apply loadBuf_same in Hrun; [| exact Heq].
    rewrite after_Read_F, after_Read_trace, after_Read_clock,
      after_Read_mirror in Hrun.
    destruct Hrun as (? & ? & ? & ? & Htr & ?).
    split_all; try assumption.
    rewrite Htr, <- app_assoc. cbn.
    destruct (VehicleType_eqb (v_Type (vehicle (F s))) File); reflexivity.
Qed.

(** C2. When the parser succeeds and the write to the mirror fails under
    the persist flag, the commit returns the write error, leaves the
    fingerprint and [updatedAt] where they were and does not call
    [onUpdate]; the next [Update] therefore hands the old fingerprint to the
    source again and, given the same contents, parses them again. *)
Theorem C2_failed_persist_commits_nothing :
  forall (s : State) (b : bytes) (h : HashType) (c : V) (e : error),
    Equal (hash (F s)) h = false ->
    parser (F s) b = (c, None) ->
    write_of s b = Some e ->
    forall (r : Result) (s' : State),
      loadBuf env (Some b) h true s = (r, s') ->
      r = (Empty, false, Some e)
      /\ hash (F s') = hash (F s)
      /\ updatedAt (F s') = updatedAt (F s)
      /\ trace (W s') = trace (W s) ++ [EvParse b; EvWrite b]
      /\ (rr_err (answer_of s') = None ->
          rr_buf (answer_of s') = Some b ->
          rr_hash (answer_of s') = h ->
          forall (r2 : Result) (s2 : State),
            Update env s' = (r2, s2) ->
            exists evs,
              trace (W s2) =
                trace (W s') ++
                  EvRead (ctx (F s)) (hash (F s)) :: EvParse b :: evs).
Proof.
  intros s b h c e Hne Hparse Hw r s' Hrun.
  destruct (loadBuf_cases _ _ _ _ _ _ Hrun)
    as [(Heq & _) | [(_ & Hb & _) | [(b' & c' & e' & _ & Hb & Hp & _)
       | [(b' & c' & e' & _ & Hb & _ & _ & Hw' & Hr & HF & Htr & _)
       | (b' & c' & _ & Hb & _ & Hw' & _)]]]];
    try congruence.
  - injection Hb as <-. rewrite Hw in Hw'. injection Hw' as <-.
    split_all; try assumption; try (rewrite HF; reflexivity).
    intros Hok Hbuf Hh r2 s2 Hrun2.
    rewrite (Update_read_ok s' Hok), Hbuf, Hh in Hrun2.
    destruct (loadBuf_cases _ _ _ _ _ _ Hrun2)
      as [(Heq & _) | [(_ & Hb2 & _) | [(b2 & c2 & e2 & _ & Hb2 & _ & _ & _ & Htr2 & _)
         | [(b2 & c2 & e2 & _ & Hb2 & _ & _ & _ & _ & _ & Htr2 & _)
         | (b2 & c2 & _ & Hb2 & _ & _ & _ & _ & Htr2)]]]];
      rewrite ?after_Read_F, ?after_Read_trace in *;
      try discriminate.
    + rewrite HF in Heq. cbn in Heq. congruence.
    + injection Hb2 as <-. rewrite HF in Htr2. cbn in Htr2.
      exists []. rewrite Htr2, <- app_assoc. reflexivity.
    + injection Hb2 as <-. rewrite HF in Htr2. cbn in Htr2.
      exists [EvWrite b]. rewrite Htr2, <- app_assoc. reflexivity.
    + injection Hb2 as <-. rewrite HF in Htr2. cbn in Htr2.
      eexists. rewrite Htr2, <- app_assoc. reflexivity.
  - injection Hb as <-. rewrite Hw' in Hw by reflexivity. discriminate.
Qed.

(** C3. A failed source read in [Update], and a failed parse in the
    commit, each add one to the attempt counter and return the error; the
    fingerprint and [updatedAt] stay as they were and [onUpdate] is not
    called (the read, respectively the parse, is the only action). *)
Theorem C3_failed_read_or_parse_counts_one_attempt :
  (forall (s : State) (e : error),
      rr_err (answer_of s) = Some e ->
      forall (r : Result) (s' : State),
        Update env s = (r, s') ->
        r = (Empty, false, Some e)
        /\ attempt (backoff (F s')) = N.succ (attempt (backoff (F s)))
        /\ hash (F s') = hash (F s)
        /\ updatedAt (F s') = updatedAt (F s)
        /\ trace (W s') = trace (W s) ++ [EvRead (ctx (F s)) (hash (F s))])
  /\ (forall (s : State) (b : bytes) (h : HashType) (updateFile : bool)
             (c : V) (e : error),
        Equal (hash (F s)) h = false ->
        parser (F s) b = (c, Some e) ->
        forall (r : Result) (s' : State),
          loadBuf env (Some b) h updateFile s = (r, s') ->
          r = (Empty, false, Some e)
          /\ attempt (backoff (F s')) = N.succ (attempt (backoff (F s)))
          /\ hash (F s') = hash (F s)
          /\ updatedAt (F s') = updatedAt (F s)
          /\ trace (W s') = trace (W s) ++ [EvParse b]).
Proof.
  split.
  - intros s e Hko r s' Hrun.
    rewrite (Update_read_failed s e Hko) in Hrun.
    inversion Hrun; subst; cbn. split_all; reflexivity.
  - intros s b h updateFile c e Hne Hparse r s' Hrun.
    destruct (loadBuf_cases _ _ _ _ _ _ Hrun)
      as [(Heq & _) | [(_ & Hb & _) | [(b' & c' & e' & _ & Hb & Hp & Hr & HF & Htr & _)
         | [(b' & c' & e' & _ & Hb & Hp & _)
         | (b' & c' & _ & Hb & Hp & _)]]]];
      try congruence.
    injection Hb as <-. rewrite Hparse in Hp. injection Hp as <- <-.
    rewrite HF. cbn. split_all; reflexivity || assumption.
Qed.

(** C4, as the code has it.  The attempt counter grows, by one, only on a
    failed source read or a failed parse.  A pipeline execution that
    returns without error leaves it at zero, except the execution that
    finds no buffer under a fingerprint different from the stored one: that
    one reports "unchanged" and leaves the counter as it was. *)
Theorem C4_attempt_counter :
  (forall (s : State) (buf : slice) (h : HashType) (updateFile : bool)
          (r : Result) (s' : State),
      loadBuf env buf h updateFile s = (r, s') ->
      let n := attempt (backoff (F s)) in
      let n' := attempt (backoff (F s')) in
      (err_of r = None ->
         n' = 0%N
         \/ (buf = None /\ Equal (hash (F s)) h = false
             /\ unchanged_of r = true /\ n' = n))
      /\ (n' <> 0%N ->
            (n' = N.succ n
             /\ exists b c e, buf = Some b /\ parser (F s) b = (c, Some e)
                              /\ err_of r = Some e)
            \/ (buf = None /\ Equal (hash (F s)) h = false /\ n' = n)))
  /\ (forall (s : State) (r : Result) (s' : State),
        Update env s = (r, s') ->
        let n := attempt (backoff (F s)) in
        let n' := attempt (backoff (F s')) in
        let rr := answer_of s in
        (err_of r = None ->
           n' = 0%N
           \/ (rr_buf rr = None /\ Equal (hash (F s)) (rr_hash rr) = false
               /\ unchanged_of r = true /\ n' = n))
        /\ (n' <> 0%N ->
              (n' = N.succ n
               /\ exists e, err_of r = Some e
                  /\ (rr_err rr = Some e
                      \/ exists b c, rr_buf rr = Some b
                                     /\ parser (F s) b = (c, Some e)))
              \/ (rr_err rr = None /\ rr_buf rr = None
                  /\ Equal (hash (F s)) (rr_hash rr) = false /\ n' = n))).
Proof.
  assert (Hload : forall (s : State) (buf : slice) (h : HashType)
          (updateFile : bool) (r : Result) (s' : State),
      loadBuf env buf h updateFile s = (r, s') ->
      let n := attempt (backoff (F s)) in
      let n' := attempt (backoff (F s')) in
      (err_of r = None ->
         n' = 0%N
         \/ (buf = None /\ Equal (hash (F s)) h = false
             /\ unchanged_of r = true /\ n' = n))
      /\ (n' <> 0%N ->
            (n' = N.succ n
             /\ exists b c e, buf = Some b /\ parser (F s) b = (c, Some e)
                              /\ err_of r = Some e)
            \/ (buf = None /\ Equal (hash (F s)) h = false /\ n' = n))).
  { intros s buf h updateFile r s' Hrun n n'. subst n n'.
    destruct (loadBuf_cases _ _ _ _ _ _ Hrun)
      as [(Heq & Hr & HF & _) | [(Hne & Hb & Hr & HF & _)
         | [(b & c & e & Hne & Hb & Hp & Hr & HF & _)
         | [(b & c & e & Hne & Hb & Hp & _ & _ & Hr & HF & _)
         | (b & c & Hne & Hb & Hp & _ & Hr & HF & _)]]]];
      rewrite HF, Hr; cbn.
    - split; [now left | congruence].
    - split; [right; now split_all | right; now split_all].
    - split; [discriminate |].
      intros _. left. split; [reflexivity | now exists b, c, e].
    - split; [discriminate | congruence].
    - split; [now left | congruence]. }
  split; [exact Hload |].
  intros s r s' Hrun n n' rr. subst n n' rr.
  destruct (rr_err (answer_of s)) as [e|] eqn:Hrr.
  - rewrite (Update_read_failed s e Hrr) in Hrun.
    inversion Hrun; subst; cbn.
    split; [discriminate |].
    intros _. left. split; [reflexivity |]. exists e. split; [reflexivity | now left].
  - rewrite (Update_read_ok s Hrr) in Hrun.
    apply Hload in Hrun. rewrite after_Read_F in Hrun.
    destruct Hrun as [Hok Hnz]. split; [exact Hok |].
    intros Hn. destruct (Hnz Hn) as [(Hs & b & c & e & Hb & Hp & He) | (Hb & Hne & Hs)].
    + left. split; [exact Hs |]. exists e. split; [exact He |].
      right. now exists b, c.
    + right. now split_all.
Qed.

(** C8. When [SideUpdate(buf)] returns without error, the same call made
    again at once reports "unchanged", again without error, and the two
    calls together call [onUpdate] at most once. *)
Theorem C8_SideUpdate_idempotent :
  forall (s : State) (buf : slice) (r1 : Result) (s1 : State)
         (r2 : Result) (s2 : State),
    SideUpdate env buf s = (r1, s1) ->
    err_of r1 = None ->
    SideUpdate env buf s1 = (r2, s2) ->
    unchanged_of r2 = true
    /\ err_of r2 = None
    /\ exists evs,
         trace (W s2) = trace (W s) ++ evs
         /\ (List.length (filter is_OnUpdate evs) <= 1)%nat.
Proof.
  intros s buf r1 s1 r2 s2 Hrun1 Hok Hrun2. unfold SideUpdate in *.
  set (h := MakeHash (contents_of buf)) in *.
  destruct (loadBuf_cases _ _ _ _ _ _ Hrun1)
    as [(Heq & Hr & HF & Htr) | [(Hne & Hb & Hr & HF & Htr & _)
       | [(b & c & e & Hne & Hb & Hp & Hr & _)
       | [(b & c & e & Hne & Hb & Hp & _ & _ & Hr & _)
       | (b & c & Hne & Hb & Hp & _ & Hr & HF & Htr)]]]];
    try (rewrite Hr in Hok; discriminate Hok).
  - (* the first call found the stored fingerprint *)
    assert (Heq1 : Equal (hash (F s1)) h = true) by (rewrite HF; exact Heq).
    destruct (loadBuf_same s1 buf h true Heq1 r2 s2 Hrun2)
      as (Hr2 & _ & _ & _ & Htr2 & _).
    rewrite Hr2. split_all; try reflexivity.
    eexists. rewrite Htr2, Htr, <- app_assoc. split; [reflexivity |].
    cbn. lia.
  - (* the first call had no buffer *)
    destruct (loadBuf_cases _ _ _ _ _ _ Hrun2)
      as [(Heq2 & _) | [(_ & _ & Hr2 & _ & Htr2 & _)
         | [(b & c & e & _ & Hb2 & _)
         | [(b & c & e & _ & Hb2 & _)
         | (b & c & _ & Hb2 & _)]]]];
      try congruence.
    rewrite Hr2. split_all; try reflexivity.
    exists []. rewrite Htr2, Htr, app_nil_r. split; [reflexivity | cbn; lia].
  - (* the first call committed [buf] *)
    assert (Heq1 : Equal (hash (F s1)) h = true)
      by (rewrite HF; cbn; apply Equal_refl).
    destruct (loadBuf_same s1 buf h true Heq1 r2 s2 Hrun2)
      as (Hr2 & _ & _ & _ & Htr2 & _).
    rewrite Hr2. split_all; try reflexivity.
    eexists. rewrite Htr2, Htr, <- app_assoc. split; [reflexivity |].
    cbn. destruct (onUpdate (F s)); cbn; lia.
Qed.

(** C10. [Update], [SideUpdate] and the commit itself return the zero
    value of [V] whenever they report "unchanged" or return an error; a
    value other than the zero value comes only from a call that parsed the
    buffer, stored its fingerprint and returned [wasUnchanged = false]
    without error. *)
Theorem C10_value_is_zero_unless_committed :
  (forall (s : State) (buf : slice) (h : HashType) (updateFile : bool)
          (r : Result) (s' : State),
      loadBuf env buf h updateFile s = (r, s') ->
      (unchanged_of r = true \/ err_of r <> None -> value_of r = Empty)
      /\ (value_of r <> Empty ->
            unchanged_of r = false /\ err_of r = None
            /\ hash (F s') = h
            /\ exists b, buf = Some b
                         /\ parser (F s) b = (value_of r, None)))
  /\ (forall (s : State) (buf : slice) (r : Result) (s' : State),
        SideUpdate env buf s = (r, s') ->
        (unchanged_of r = true \/ err_of r <> None -> value_of r = Empty)
        /\ (value_of r <> Empty ->
              unchanged_of r = false /\ err_of r = None
              /\ hash (F s') = MakeHash (contents_of buf)
              /\ exists b, buf = Some b
                           /\ parser (F s) b = (value_of r, None)))
  /\ (forall (s : State) (r : Result) (s' : State),
        Update env s = (r, s') ->
        (unchanged_of r = true \/ err_of r <> None -> value_of r = Empty)
        /\ (value_of r <> Empty ->
              unchanged_of r = false /\ err_of r = None
              /\ hash (F s') = rr_hash (answer_of s)
              /\ exists b, rr_buf (answer_of s) = Some b
                           /\ parser (F s) b = (value_of r, None))).
Proof.
  assert (Hload : forall (s : State) (buf : slice) (h : HashType)
          (updateFile : bool) (r : Result) (s' : State),
      loadBuf env buf h updateFile s = (r, s') ->
      (unchanged_of r = true \/ err_of r <> None -> value_of r = Empty)
      /\ (value_of r <> Empty ->
            unchanged_of r = false /\ err_of r = None
            /\ hash (F s') = h
            /\ exists b, buf = Some b
                         /\ parser (F s) b = (value_of r, None))).
  { intros s buf h updateFile r s' Hrun.
    destruct (loadBuf_cases _ _ _ _ _ _ Hrun)
      as [(Heq & Hr & HF & _) | [(Hne & Hb & Hr & HF & _)
         | [(b & c & e & Hne & Hb & Hp & Hr & HF & _)
         | [(b & c & e & Hne & Hb & Hp & _ & _ & Hr & HF & _)
         | (b & c & Hne & Hb & Hp & _ & Hr & HF & _)]]]];
      rewrite Hr; cbn; try (split; [reflexivity | congruence]).
    split.
    - intros [Hu | He]; [discriminate Hu | now elim He].
    - intros _. rewrite HF. cbn. split_all; try reflexivity. now exists b. }
  split_all.
  - exact Hload.
  - intros s buf r s' Hrun. unfold SideUpdate in Hrun.
    exact (Hload _ _ _ _ _ _ Hrun).
  - intros s r s' Hrun.
    destruct (rr_err (answer_of s)) as [e|] eqn:Hrr.
    + rewrite (Update_read_failed s e Hrr) in Hrun.
      inversion Hrun; subst; cbn. split; [reflexivity | congruence].
    + rewrite (Update_read_ok s Hrr) in Hrun.
      apply Hload in Hrun. rewrite after_Read_F in Hrun. exact Hrun.
Qed.

End Pipeline.

(** ** Properties of the refresh driver and of the lifecycle *)

Section Driver.
Context {P : Params} (env : Env).

(** What a commit never touches. *)
Lemma loadBuf_frame (s : State) (buf : slice) (h : HashType)
    (updateFile : bool) (r : Result) (s' : State) :
  loadBuf env buf h updateFile s = (r, s') ->
  same_config (F s) (F s')
  /\ ctx (F s') = ctx (F s)
  /\ watcher (F s') = watcher (F s)
  /\ loops (W s') = loops (W s).
Proof.
  intros Hrun. unfold loadBuf in Hrun. unfold_calls. unfold_monad.
  cbn in Hrun.
  repeat match type of Hrun with
         | context [if ?c then _ else _] => destruct c; cbn in Hrun
         | context [match ?x with Some _ => _ | None => _ end] =>
             destruct x; cbn in Hrun
         | context [let (_, _) := ?x in _] => destruct x; cbn in Hrun
         end;
    inversion Hrun; subst; unfold same_config; cbn; split_all; reflexivity.
Qed.

(** The events of a commit: neither a read of the source nor a new
    goroutine. *)
Lemma loadBuf_events (s : State) (buf : slice) (h : HashType)
    (updateFile : bool) (r : Result) (s' : State) :
  loadBuf env buf h updateFile s = (r, s') ->
  exists evs,
    trace (W s') = trace (W s) ++ evs
    /\ filter is_Read evs = [] /\ filter is_Go evs = [].
Proof.
  intros Hrun.
  destruct (loadBuf_cases env _ _ _ _ _ _ Hrun)
    as [(_ & _ & _ & Htr) | [(_ & _ & _ & _ & Htr & _)
       | [(b & c & e & _ & _ & _ & _ & _ & Htr & _)
       | [(b & c & e & _ & _ & _ & _ & _ & _ & _ & Htr & _)
       | (b & c & _ & _ & _ & _ & _ & _ & Htr)]]]].
  - eexists; split; [exact Htr |]. now destruct updateFile.
  - exists []. now rewrite app_nil_r.
  - eexists; split; [exact Htr |]. now split.
  - eexists; split; [exact Htr |]. now split.
  - eexists; split; [exact Htr |].
    now destruct updateFile, (onUpdate (F s)).
Qed.

Lemma Update_frame (s : State) (r : Result) (s' : State) :
  Update env s = (r, s') ->
  same_config (F s) (F s')
  /\ ctx (F s') = ctx (F s)
  /\ watcher (F s') = watcher (F s)
  /\ loops (W s') = loops (W s).
Proof.
  intros Hrun. destruct (rr_err (answer_of s)) as [e|] eqn:Hrr.
  - rewrite (Update_read_failed env s e Hrr) in Hrun.
    inversion Hrun; subst; cbn. unfold same_config. now split_all.
  - rewrite (Update_read_ok env s Hrr) in Hrun.
    apply loadBuf_frame in Hrun. exact Hrun.
Qed.

(** [Update] reads the source exactly once, first of all. *)
Lemma Update_events (s : State) (r : Result) (s' : State) :
  Update env s = (r, s') ->
  exists evs,
    trace (W s') = trace (W s) ++ EvRead (ctx (F s)) (hash (F s)) :: evs
    /\ filter is_Read evs = [] /\ filter is_Go evs = [].
Proof.
  intros Hrun. destruct (rr_err (answer_of s)) as [e|] eqn:Hrr.
  - rewrite (Update_read_failed env s e Hrr) in Hrun.
    inversion Hrun; subst; cbn. exists []. now split_all.
  - rewrite (Update_read_ok env s Hrr) in Hrun.
    apply loadBuf_events in Hrun. destruct Hrun as (evs & Htr & Hr & Hg).
    exists evs. rewrite Htr, after_Read_trace, <- app_assoc. now split_all.
Qed.

Lemma updateWithLog_run (s : State) :
  exists lvl,
    updateWithLog env s =
      (tt, recorded (EvLog lvl) (exec (Update env) s)).
Proof.
  unfold updateWithLog, bind, exec.
  destruct (Update env s) as [[[v same] err] s1]. cbn.
  destruct err; [now exists Error |].
  destruct same; [now exists Debug | now exists Info].
Qed.

Lemma updateWithLog_frame (s s' : State) :
  updateWithLog env s = (tt, s') ->
  same_config (F s) (F s')
  /\ ctx (F s') = ctx (F s)
  /\ watcher (F s') = watcher (F s)
  /\ loops (W s') = loops (W s).
Proof.
  intros Hrun. destruct (updateWithLog_run s) as (lvl & Heq).
  rewrite Heq in Hrun. inversion Hrun; subst. cbn.
  unfold exec. destruct (Update env s) as [r s1] eqn:Hu. cbn.
  exact (Update_frame _ _ _ Hu).
Qed.

Lemma updateWithLog_events (s s' : State) :
  updateWithLog env s = (tt, s') ->
  exists evs,
    trace (W s') = trace (W s) ++ EvRead (ctx (F s)) (hash (F s)) :: evs
    /\ filter is_Read evs = [] /\ filter is_Go evs = [].
Proof.
  intros Hrun. destruct (updateWithLog_run s) as (lvl & Heq).
  rewrite Heq in Hrun. inversion Hrun; subst. cbn.
  unfold exec. destruct (Update env s) as [r s1] eqn:Hu. cbn.
  destruct (Update_events _ _ _ Hu) as (evs & Htr & Hr & Hg).
  exists (evs ++ [EvLog lvl]). rewrite Htr, <- app_assoc. cbn.
  rewrite !filter_app, Hr, Hg. now split_all.
Qed.

Lemma Int64_sub_exact (a b : Z) :
  Int64.in_range (a - b) -> Int64.sub a b = a - b.
Proof.
  unfold Int64.in_range, Int64.sub, Int64.wrap, Int64.min_int, Int64.max_int.
  intros H. rewrite Z.mod_small; lia.
Qed.

Lemma shorter_le (delay d : Z) : (if delay <? d then delay else d) <= d.
Proof. destruct (Z.ltb_spec delay d); lia. Qed.

(** C7. The duration [pullLoop] gives to [time.NewTimer], and every
    duration it gives to [timer.Reset], is at most [interval].  The first
    one starts from [interval - time.Since(updatedAt)] in [Duration]
    arithmetic (the plain difference whenever that fits a [Duration]), cut
    down to [interval]; with a nonzero attempt counter the backoff delay for
    that attempt takes its place exactly when it is smaller.  Later ones
    start from [interval] and are shortened the same way. *)
Theorem C7_wait_at_most_interval :
  (forall (s : State) (forceUpdate : bool) (d : Duration) (s' : State),
      pullLoop_enter env forceUpdate s = (d, s') ->
      let elapsed := Sub (clock env (clock_reads (W s))) (updatedAt (F s)) in
      let computed :=
        Z.min (Int64.sub (interval (F s)) elapsed) (interval (F s)) in
      let n := attempt (backoff (F s')) in
      let delay := ForAttempt (Min (backoff (F s))) (Max (backoff (F s))) n in
      d <= interval (F s)
      /\ d = (if (0 <? n)%N
              then if delay <? computed then delay else computed
              else computed)
      /\ (Int64.in_range (interval (F s) - elapsed) ->
          computed = Z.min (interval (F s) - elapsed) (interval (F s)))
      /\ (forceUpdate = false -> n = attempt (backoff (F s)))
      /\ exists evs, trace (W s') = trace (W s) ++ evs ++ [EvNewTimer d])
  /\ (forall (s : State) (d : Duration) (s' : State),
        pullLoop_tick env s = (d, s') ->
        let n := attempt (backoff (F s')) in
        let delay := ForAttempt (Min (backoff (F s))) (Max (backoff (F s))) n in
        d <= interval (F s)
        /\ d = (if (0 <? n)%N
                then if delay <? interval (F s) then delay else interval (F s)
                else interval (F s))
        /\ exists evs, trace (W s') = trace (W s) ++ evs ++ [EvTimerReset d]).
Proof.
  split.
  - intros s forceUpdate d s' Hrun elapsed computed.
    assert (Hc : (if interval (F s) <? Int64.sub (interval (F s)) elapsed
                  then interval (F s)
                  else Int64.sub (interval (F s)) elapsed) = computed).
    { subst computed.
      destruct (Z.ltb_spec (interval (F s))
                           (Int64.sub (interval (F s)) elapsed)); lia. }
    assert (Hle : computed <= interval (F s)) by (subst computed; lia).
    unfold pullLoop_enter in Hrun.
    unfold bind at 1 in Hrun. unfold getF at 1 in Hrun.
    unfold bind at 1 in Hrun. unfold time_Since, time_Now in Hrun.
    unfold_monad. cbn in Hrun. fold elapsed in Hrun. rewrite Hc in Hrun.
    (* the state [s1] in which the attempt counter is read *)
    assert (Hmid : exists s1 evs,
               same_config (F s) (F s1)
               /\ (forceUpdate = false ->
                   attempt (backoff (F s1)) = attempt (backoff (F s)))
               /\ trace (W s1) = trace (W s) ++ evs
               /\ s' = recorded (EvNewTimer d) s1
               /\ d = (if (0 <? attempt (backoff (F s1)))%N
                       then
                         if ForAttempt (Min (backoff (F s1)))
                                       (Max (backoff (F s1)))
                                       (attempt (backoff (F s1))) <? computed
                         then ForAttempt (Min (backoff (F s1)))
                                         (Max (backoff (F s1)))
                                         (attempt (backoff (F s1)))
                         else computed
                       else computed)).
    { destruct forceUpdate.
      - destruct (updateWithLog env _) as [[] s1] eqn:Hu in Hrun.
        destruct (updateWithLog_frame _ _ Hu) as (Hcfg & _).
        destruct (updateWithLog_events _ _ Hu) as (evs & Htr & _).
        cbn in Htr, Hcfg.
        exists s1, (EvLog Warn :: EvRead (ctx (F s)) (hash (F s)) :: evs).
        split_all; [exact Hcfg | discriminate | | |].
        + rewrite Htr, <- app_assoc. reflexivity.
        + destruct (0 <? attempt (backoff (F s1)))%N;
            injection Hrun as Hd Hs; rewrite <- Hs, <- Hd; reflexivity.
        + destruct (0 <? attempt (backoff (F s1)))%N;
            injection Hrun as Hd Hs; rewrite <- Hd; reflexivity.
      - exists {| F := F s;
                  W := with_clock_reads (S (clock_reads (W s))) (W s) |}, [].
        rewrite app_nil_r. cbn. cbn in Hrun.
        split_all; [| reflexivity | reflexivity | |].
        + unfold same_config. cbn. now split_all.
        + destruct (0 <? attempt (backoff (F s)))%N;
            injection Hrun as Hd Hs; rewrite <- Hs, <- Hd; reflexivity.
        + destruct (0 <? attempt (backoff (F s)))%N;
            injection Hrun as Hd Hs; rewrite <- Hd; reflexivity. }
    destruct Hmid
      as (s1 & evs & (_ & _ & _ & _ & Hmin & Hmax) & Hn & Htr & Hs' & Hd).
    rewrite Hmin, Hmax in Hd. rewrite Hs'. cbn.
    split_all.
    + rewrite Hd at 1. destruct (0 <? attempt (backoff (F s1)))%N;
        [| exact Hle].
      apply Z.le_trans with computed; [apply shorter_le | exact Hle].
    + exact Hd.
    + intros Hr. subst computed. now rewrite Int64_sub_exact.
    + exact Hn.
    + exists evs. rewrite Htr, <- app_assoc. reflexivity.
  - intros s d s' Hrun.
    unfold pullLoop_tick in Hrun. unfold bind at 1 in Hrun.
    destruct (updateWithLog env s) as [[] s1] eqn:Hu.
    destruct (updateWithLog_frame _ _ Hu)
      as ((_ & _ & Hi & _ & Hmin & Hmax) & _).
    destruct (updateWithLog_events _ _ Hu) as (evs & Htr & _).
    unfold_calls. unfold_monad. cbn in Hrun.
    assert (Hres : s' = recorded (EvTimerReset d) s1
               /\ d = (if (0 <? attempt (backoff (F s1)))%N
                       then
                         if ForAttempt (Min (backoff (F s1)))
                                       (Max (backoff (F s1)))
                                       (attempt (backoff (F s1)))
                            <? interval (F s1)
                         then ForAttempt (Min (backoff (F s1)))
                                         (Max (backoff (F s1)))
                                         (attempt (backoff (F s1)))
                         else interval (F s1)
                       else interval (F s1))).
    { destruct (0 <? attempt (backoff (F s1)))%N;
        injection Hrun as Hd Hs; rewrite <- Hs, <- Hd; split; reflexivity. }
    destruct Hres as (Hs' & Hd). rewrite Hi, Hmin, Hmax in Hd.
    rewrite Hs'. cbn.
    split_all.
    + rewrite Hd at 1. destruct (0 <? attempt (backoff (F s1)))%N;
        [apply shorter_le | lia].
    + exact Hd.
    + exists (EvRead (ctx (F s)) (hash (F s)) :: evs).
      rewrite Htr, <- app_assoc. reflexivity.
Qed.

(** [startPullLoop] starts a watcher for a [File] vehicle, a goroutine
    for any other vehicle with a positive interval, and nothing
    otherwise. *)
Lemma startPullLoop_cases (forceUpdate : bool) (s : State)
    (es : option error) (s' : State) :
  startPullLoop env forceUpdate s = (es, s') ->
  (VehicleType_eqb (v_Type (vehicle (F s))) File = true
   /\ es = match NewWatcher_err env with
           | Some e => Some e
           | None => Start_err env
           end
   /\ trace (W s') =
        trace (W s) ++ EvNewWatcher ::
          match NewWatcher_err env with
          | Some _ => []
          | None => [EvWatcherStart]
          end
   /\ loops (W s') = loops (W s)
   /\ ctx (F s') = ctx (F s)
   /\ watcher (F s') =
        match NewWatcher_err env with
        | Some _ => None
        | None =>
            Some {| started := match Start_err env with
                               | Some _ => false
                               | None => true
                               end;
                    closed := false |}
        end)
  \/ (VehicleType_eqb (v_Type (vehicle (F s))) File = false
      /\ 0 < interval (F s)
      /\ es = None
      /\ trace (W s') = trace (W s) ++ [EvGo forceUpdate]
      /\ loops (W s') = loops (W s) ++ [Spawned forceUpdate]
      /\ F s' = F s)
  \/ (VehicleType_eqb (v_Type (vehicle (F s))) File = false
      /\ interval (F s) <= 0
      /\ es = None
      /\ s' = s).
Proof.
  intros Hrun. unfold startPullLoop in Hrun. unfold_calls. unfold_monad.
  cbn in Hrun.
  destruct (VehicleType_eqb (v_Type (vehicle (F s))) File).
  - left. destruct (NewWatcher_err env); cbn in Hrun;
      [inversion Hrun; subst; cbn; now split_all |].
    destruct (Start_err env); cbn in Hrun; inversion Hrun; subst; cbn;
      split_all; try reflexivity; try (now rewrite <- app_assoc).
  - right. destruct (Z.ltb_spec 0 (interval (F s))); cbn in Hrun;
      inversion Hrun; subst; cbn.
    + left. now split_all.
    + right. split_all; reflexivity || assumption.
Qed.

Lemma loadBuf_clock (s : State) (buf : slice) (h : HashType) (r : Result)
    (s' : State) :
  loadBuf env buf h false s = (r, s') ->
  clock_reads (W s') = S (clock_reads (W s)).
Proof.
  intros Hrun. unfold loadBuf in Hrun. unfold_calls. unfold_monad.
  cbn in Hrun.
  repeat match type of Hrun with
         | context [if ?c then _ else _] => destruct c; cbn in Hrun
         | context [match ?x with Some _ => _ | None => _ end] =>
             destruct x; cbn in Hrun
         | context [let (_, _) := ?x in _] => destruct x; cbn in Hrun
         end;
    inversion Hrun; subst; reflexivity.
Qed.

(** The two ways out of the block of lines 53-67. *)
Lemma Initial_local_run (modTime : Time) (s : State)
    (l : option (V * option error)) (s' : State) :
  Initial_local env modTime s = (l, s') ->
  exists r1 s1,
    loadBuf env (mirror_buf s) (MakeHash (contents_of (mirror_buf s))) false
            (recorded EvReadFile s) = (r1, s1)
    /\ match err_of r1 with
       | Some _ =>
           l = None
           /\ s' = {| F := with_updatedAt modTime (F s1); W := W s1 |}
       | None =>
           exists es,
             startPullLoop env
               (interval (F s) <?
                  Sub (clock env (S (clock_reads (W s)))) modTime)
               {| F := with_updatedAt modTime (F s1);
                  W := with_clock_reads (S (clock_reads (W s1))) (W s1) |}
             = (es, s')
             /\ l = Some match es with
                         | Some e => (Empty, Some e)
                         | None => (value_of r1, None)
                         end
       end.
Proof.
  intros Hrun. unfold Initial_local in Hrun.
  unfold bind at 1 in Hrun. unfold os_ReadFile in Hrun.
  unfold bind at 1 2 in Hrun. unfold emit, modifyW, getW, ret in Hrun.
  cbv beta iota in Hrun. unfold bind at 1 in Hrun.
  change (match mirror _ with Some m => m_data m | None => None end)
    with (mirror_buf s) in Hrun.
  change ({| F := F s; W := with_trace (trace (W s) ++ [EvReadFile]) (W s) |})
    with (recorded EvReadFile s) in Hrun.
  destruct (loadBuf env _ _ false (recorded EvReadFile s))
    as [[[c u] e] s1] eqn:Hload.
  exists (c, u, e), s1. split; [reflexivity |].
  pose proof (loadBuf_frame _ _ _ _ _ _ Hload) as ((_ & _ & Hi & _) & _).
  pose proof (loadBuf_clock _ _ _ _ _ Hload) as Hclk.
  cbn in Hi, Hclk. unfold err_of, value_of. cbn [fst snd].
  unfold_calls. unfold_monad. cbn in Hrun.
  destruct e as [e|].
  - inversion Hrun; subst. now split.
  - change (startPullLoop env _ _)
      with (startPullLoop env
              (interval (F s1) <? Sub (clock env (clock_reads (W s1))) modTime)
              {| F := with_updatedAt modTime (F s1);
                 W := with_clock_reads (S (clock_reads (W s1))) (W s1) |})
      in Hrun.
    rewrite Hi in Hrun. rewrite Hclk in Hrun at 1.
    destruct (startPullLoop env _ _) as [es s2] eqn:Hstart in Hrun.
    exists es. rewrite Hstart.
    destruct es; inversion Hrun; subst; now split.
Qed.

Lemma Initial_fallback_run (s : State) (r : V * option error) (s' : State) :
  Initial_fallback env s = (r, s') ->
  exists ru s1 es,
    Update env s = (ru, s1)
    /\ startPullLoop env false s1 = (es, s')
    /\ r = match es with
           | Some e => (Empty, Some e)
           | None =>
               match err_of ru with
               | Some e => (Empty, Some e)
               | None => (value_of ru, None)
               end
           end.
Proof.
  intros Hrun. unfold Initial_fallback in Hrun. unfold bind at 1 in Hrun.
  destruct (Update env s) as [[[c u] e] s1] eqn:Hu.
  unfold bind at 1 in Hrun.
  destruct (startPullLoop env false s1) as [es s2] eqn:Hstart.
  exists (c, u, e), s1, es. unfold err_of, value_of. cbn [fst snd].
  unfold ret in Hrun.
  destruct es; [| destruct e]; inversion Hrun; subst; now split_all.
Qed.

Lemma Initial_run (s : State) :
  Initial env s =
    match mirror (W s) with
    | None => Initial_fallback env (recorded EvStat s)
    | Some m =>
        let (l, s1) := Initial_local env (m_modTime m) (recorded EvStat s) in
        match l with
        | Some r => (r, s1)
        | None => Initial_fallback env s1
        end
    end.
Proof.
  unfold Initial, os_Stat. unfold_monad. cbn.
  destruct (mirror (W s)) as [m|]; cbn; [| reflexivity].
  destruct (Initial_local env (m_modTime m) _) as [[r|] s1]; reflexivity.
Qed.

Lemma VehicleType_eqb_File (t : VehicleType) :
  VehicleType_eqb t File = false <-> t <> File.
Proof. destruct t; cbn; split; congruence. Qed.


Lemma startPullLoop_events (forceUpdate : bool) (s : State)
    (es : option error) (s' : State) :
  startPullLoop env forceUpdate s = (es, s') ->
  trace (W s') = trace (W s) ++ start_events env (F s) forceUpdate.
Proof.
  intros Hrun. unfold start_events.
  destruct (startPullLoop_cases _ _ _ _ Hrun)
    as [(Ht & _ & Htr & _) | [(Ht & Hi & _ & Htr & _) | (Ht & Hi & _ & ->)]];
    rewrite Ht.
  - exact Htr.
  - apply Z.ltb_lt in Hi. now rewrite Hi.
  - apply Z.ltb_ge in Hi. now rewrite Hi, app_nil_r.
Qed.


Lemma start_events_no_Read (f : Fetcher) (forceUpdate : bool) :
  filter is_Read (start_events env f forceUpdate) = [].
Proof.
  unfold start_events.
  destruct (VehicleType_eqb (v_Type (vehicle f)) File);
    [now destruct (NewWatcher_err env) |].
  now destruct (0 <? interval f).
Qed.

(** The fallback of [Initial]: one [Update], then [startPullLoop(false)],
    then the result. *)
Lemma Initial_fallback_shape (s : State) (r : V * option error)
    (s' : State) :
  Initial_fallback env s = (r, s') ->
  exists ru s1 es upd,
    Update env s = (ru, s1)
    /\ trace (W s1) = trace (W s) ++ EvRead (ctx (F s)) (hash (F s)) :: upd
    /\ filter is_Read upd = [] /\ filter is_Go upd = []
    /\ startPullLoop env false s1 = (es, s')
    /\ trace (W s') = trace (W s1) ++ start_events env (F s) false
    /\ r = match es with
           | Some e => (Empty, Some e)
           | None =>
               match err_of ru with
               | Some e => (Empty, Some e)
               | None => (value_of ru, None)
               end
           end.
Proof.
  intros Hrun.
  destruct (Initial_fallback_run _ _ _ Hrun) as (ru & s1 & es & Hu & Hst & Hr).
  destruct (Update_events _ _ _ Hu) as (upd & Htr & Hnr & Hng).
  destruct (Update_frame _ _ _ Hu) as ((Hv & _ & Hi & _) & _).
  exists ru, s1, es, upd. split_all; try assumption.
  rewrite (startPullLoop_events _ _ _ _ Hst).
  unfold start_events. now rewrite Hv, Hi.
Qed.

(** C5. When the mirror is absent, or is there and fails to parse,
    [Initial] makes exactly one [Update] (one read of the source), then
    calls [startPullLoop(false)] whatever the [Update] returned, and only
    then returns: the error of the driver if starting it failed, otherwise
    the error of the [Update] if it had one, otherwise the contents. *)
Theorem C5_fallback_then_driver :
  forall (s : State) (r : V * option error) (s' : State),
    (mirror (W s) = None
     \/ exists m b c e,
          mirror (W s) = Some m /\ m_data m = Some b
          /\ Equal (hash (F s)) (MakeHash b) = false
          /\ parser (F s) b = (c, Some e)) ->
    Initial env s = (r, s') ->
    exists (s0 : State) (ru : Result) (s1 : State) (es : option error)
           (pre upd : list Event),
      trace (W s0) = trace (W s) ++ pre
      /\ (pre = [EvStat] \/ exists b, pre = [EvStat; EvReadFile; EvParse b])
      /\ Update env s0 = (ru, s1)
      /\ trace (W s1) = trace (W s0) ++ EvRead (ctx (F s)) (hash (F s)) :: upd
      /\ filter is_Read upd = []
      /\ startPullLoop env false s1 = (es, s')
      /\ trace (W s') = trace (W s1) ++ start_events env (F s) false
      /\ r = match es with
             | Some e => (Empty, Some e)
             | None =>
                 match err_of ru with
                 | Some e => (Empty, Some e)
                 | None => (value_of ru, None)
                 end
             end.
Proof.
  intros s r s' Hmirror Hrun. rewrite Initial_run in Hrun.
  destruct Hmirror as [Hm | (m & b & c & e & Hm & Hb & Hne & Hp)];
    rewrite Hm in Hrun.
  - destruct (Initial_fallback_shape _ _ _ Hrun)
      as (ru & s1 & es & upd & Hu & Htr & Hnr & _ & Hst & Htr' & Hr).
    exists (recorded EvStat s), ru, s1, es, [EvStat], upd.
    split_all; try assumption; try reflexivity. now left.
  - destruct (Initial_local env (m_modTime m) (recorded EvStat s))
      as [l s0] eqn:Hlocal.
    destruct (Initial_local_run _ _ _ _ Hlocal) as (r1 & sl & Hload & Hout).
    assert (Hbuf : mirror_buf (recorded EvStat s) = Some b)
      by (unfold mirror_buf; cbn; now rewrite Hm).
    rewrite Hbuf in Hload. cbn [contents_of] in Hload.
    destruct (loadBuf_cases env _ _ _ _ _ _ Hload)
      as [(Heq & _) | [(_ & Hb' & _)
         | [(b' & c' & e' & _ & Hb' & Hp' & Hr1 & HF & Htrl & _)
         | [(b' & c' & e' & _ & _ & _ & Hfalse & _)
         | (b' & c' & _ & Hb' & Hp' & _)]]]];
      cbn in *; try congruence.
    injection Hb' as <-.
    rewrite Hr1 in Hout. cbn in Hout. destruct Hout as (-> & Hs0).
    destruct (Initial_fallback_shape _ _ _ Hrun)
      as (ru & s1 & es & upd & Hu & Htr & Hnr & _ & Hst & Htr' & Hr).
    rewrite Hs0, HF in Htr, Htr'. cbn in Htr, Htr'.
    exists s0, ru, s1, es, [EvStat; EvReadFile; EvParse b], upd.
    split_all; try assumption.
    + rewrite Hs0. cbn. rewrite Htrl, <- !app_assoc. reflexivity.
    + right. now exists b.
    + rewrite Hs0. exact Htr.
Qed.



End Driver.

(** ** Shutdown *)

Section Shutdown.
Context {P : Params} (env : Env).

Lemma updateWithLog_same_driver (s s' : State) :
  updateWithLog env s = (tt, s') -> same_driver s s'.
Proof. intros H. now destruct (updateWithLog_frame env _ _ H) as (_ & ?). Qed.

Lemma pullLoop_enter_same_driver (forceUpdate : bool) (s : State)
    (d : Duration) (s' : State) :
  pullLoop_enter env forceUpdate s = (d, s') -> same_driver s s'.
Proof.
  intros Hrun. unfold pullLoop_enter in Hrun.
  unfold bind at 1 in Hrun. unfold getF at 1 in Hrun.
  unfold bind at 1 in Hrun. unfold time_Since, time_Now in Hrun.
  unfold_monad. cbn in Hrun.
  destruct forceUpdate.
  - destruct (updateWithLog env _) as [[] s1] eqn:Hu in Hrun.
    apply updateWithLog_same_driver in Hu. unfold_calls. unfold_monad.
    destruct (0 <? attempt (backoff (F s1)))%N; cbn in Hrun;
      injection Hrun as _ <-; unfold same_driver in *; cbn in *;
      exact Hu.
  - unfold_calls. unfold_monad. cbn in Hrun.
    destruct (0 <? attempt (backoff (F s)))%N; cbn in Hrun;
      injection Hrun as _ <-; unfold same_driver; cbn; now split_all.
Qed.



(** [Close] cancels the context and closes the watcher, and leaves the
    goroutines to themselves. *)
Lemma Close_effect (s : State) :
  ctx (F (exec Close s)) = true
  /\ watching (F (exec Close s)) = false
  /\ (watcher (F s) = None -> watcher (F (exec Close s)) = None)
  /\ loops (W (exec Close s)) = loops (W s)
  /\ trace (W (exec Close s)) =
       trace (W s) ++ EvCancel ::
         match watcher (F s) with
         | Some _ => [EvWatcherClose]
         | None => []
         end.
Proof.
  unfold Close, watching. unfold_calls. unfold_monad. cbn.
  destruct (watcher (F s)) as [w|] eqn:Hw; cbn; rewrite ?Hw; cbn;
    split_all; try reflexivity; try discriminate.
  - apply andb_false_r.
  - now rewrite <- app_assoc.
Qed.

Lemma set_loop_effect (i : nat) (l : PullLoop) (s : State) :
  F (exec (set_loop i l) s) = F s
  /\ loops (W (exec (set_loop i l) s)) = replace i l (loops (W s))
  /\ trace (W (exec (set_loop i l) s)) = trace (W s).
Proof. unfold_calls. unfold_monad. cbn. now split_all. Qed.










End Shutdown.

(** ** Further properties of the fetcher *)

Section More.
Context {P : Params} (env : Env).

Lemma same_config_refl (f : Fetcher) : same_config f f.
Proof. unfold same_config. now split_all. Qed.

Lemma same_config_trans (f1 f2 f3 : Fetcher) :
  same_config f1 f2 -> same_config f2 f3 -> same_config f1 f3.
Proof.
  unfold same_config.
  intros (? & ? & ? & ? & ? & ?) (? & ? & ? & ? & ? & ?).
  split_all; congruence.
Qed.







(** What [startPullLoop] returns and what it leaves alone. *)
Lemma startPullLoop_effect (forceUpdate : bool) (s : State)
    (es : option error) (s' : State) :
  startPullLoop env forceUpdate s = (es, s') ->
  es = start_error env (F s)
  /\ hash (F s') = hash (F s)
  /\ updatedAt (F s') = updatedAt (F s)
  /\ attempt (backoff (F s')) = attempt (backoff (F s))
  /\ mirror (W s') = mirror (W s)
  /\ trace (W s') = trace (W s) ++ start_events env (F s) forceUpdate.
Proof.
  intros Hrun. pose proof (startPullLoop_events env _ _ _ _ Hrun) as Htr.
  split_all; try exact Htr; clear Htr;
    unfold startPullLoop, start_error in *; unfold_calls; unfold_monad;
    cbn in Hrun;
    repeat match type of Hrun with
           | context [if ?c then _ else _] => destruct c; cbn in Hrun
           | context [match ?x with Some _ => _ | None => _ end] =>
               destruct x; cbn in Hrun
           end;
    inversion Hrun; subst; reflexivity.
Qed.

(** A commit without the persist flag leaves the mirror alone. *)
Lemma loadBuf_nopersist (s : State) (buf : slice) (h : HashType)
    (r : Result) (s' : State) :
  loadBuf env buf h false s = (r, s') ->
  mirror (W s') = mirror (W s)
  /\ exists evs,
       trace (W s') = trace (W s) ++ evs /\ filter touches_mirror evs = [].
Proof.
  intros Hrun. unfold loadBuf in Hrun. unfold_calls. unfold_monad.
  cbn in Hrun.
  repeat match type of Hrun with
         | context [if ?c then _ else _] => destruct c; cbn in Hrun
         | context [match ?x with Some _ => _ | None => _ end] =>
             destruct x; cbn in Hrun
         | context [let (_, _) := ?x in _] => destruct x; cbn in Hrun
         end;
    inversion Hrun; subst; cbn; (split; [reflexivity |]);
    try (exists []; now rewrite app_nil_r);
    eexists; rewrite <- ?app_assoc; split; reflexivity.
Qed.

(** X2. When the mirror is there, can be read and parses (under a
    fingerprint that is not the stored one), [Initial] returns the parsed
    contents, or the zero value with the error of the driver's start if
    that fails.  It takes the fingerprint of the mirror, calls [onUpdate]
    once, zeroes the attempt counter and sets [updatedAt] to the
    modification time of the mirror, not to the current time.  It neither
    reads the source nor writes the mirror or its timestamps. *)
Theorem X2_bootstrap_from_mirror :
  forall (s : State) (m : MirrorFile) (b : bytes) (c : V),
    mirror (W s) = Some m -> m_data m = Some b ->
    Equal (hash (F s)) (MakeHash b) = false ->
    parser (F s) b = (c, None) ->
    forall (r : V * option error) (s' : State),
      Initial env s = (r, s') ->
      r = match start_error env (F s) with
          | Some e => (Empty, Some e)
          | None => (c, None)
          end
      /\ updatedAt (F s') = m_modTime m
      /\ hash (F s') = MakeHash b
      /\ attempt (backoff (F s')) = 0%N
      /\ mirror (W s') = mirror (W s)
      /\ trace (W s') =
           trace (W s) ++
             [EvStat; EvReadFile; EvParse b] ++
             (if onUpdate (F s) then [EvOnUpdate c] else []) ++
             start_events env (F s)
               (interval (F s) <?
                  Sub (clock env (S (clock_reads (W s)))) (m_modTime m)).
Proof.
  intros s m b c Hm Hb Hne Hp r s' Hrun. rewrite Initial_run, Hm in Hrun.
  destruct (Initial_local env (m_modTime m) (recorded EvStat s))
    as [l s0] eqn:Hlocal.
  destruct (Initial_local_run env _ _ _ _ Hlocal) as (r1 & sl & Hload & Hout).
  assert (Hbuf : mirror_buf (recorded EvStat s) = Some b)
    by (unfold mirror_buf; cbn; now rewrite Hm).
  rewrite Hbuf in Hload. cbn [contents_of] in Hload.
  destruct (loadBuf_nopersist _ _ _ _ _ Hload) as (Hmir & _).
  destruct (loadBuf_frame env _ _ _ _ _ _ Hload) as ((Hv & _ & Hi & _) & _).
  destruct (loadBuf_cases env _ _ _ _ _ _ Hload)
    as [(Heq & _) | [(_ & Hb' & _)
       | [(b' & c' & e' & _ & Hb' & Hp' & _)
       | [(b' & c' & e' & _ & _ & _ & Hfalse & _)
       | (b' & c' & _ & Hb' & Hp' & _ & Hr1 & HF & Htrl)]]]];
    cbn in *; try congruence.
  injection Hb' as <-. rewrite Hp in Hp'. injection Hp' as <-.
  rewrite Hr1 in Hout. cbn in Hout. destruct Hout as (es & Hst & ->).
  injection Hrun as <- <-.
  destruct (startPullLoop_effect _ _ _ _ Hst)
    as (Hes & Hh & Hu & Ha & Hmi & Htr).
  cbn in Hes, Hh, Hu, Ha, Hmi, Htr.
  unfold start_error, start_events in *. cbn in Hes, Htr.
  rewrite Hv, Hi in *. rewrite HF in Hh, Ha.  cbn in Hh, Ha.
  split_all.
  - rewrite Hes. unfold value_of. cbn.
    destruct (VehicleType_eqb (v_Type (vehicle (F s))) File);
      [destruct (NewWatcher_err env); [reflexivity |];
       destruct (Start_err env); reflexivity | reflexivity].
  - exact Hu.
  - exact Hh.
  - exact Ha.
  - congruence.
  - rewrite Htr, Htrl, <- !app_assoc. reflexivity.
Qed.

(** X3. For a [File] vehicle whose watcher cannot be created or started,
    [Initial] returns the zero value and the error of the watcher, whether
    it loaded the mirror or fell back to the source, and whatever either of
    them returned; no watcher is left that would deliver notifications. *)
Theorem X3_watcher_error_aborts_Initial :
  forall (s : State) (e : error) (r : V * option error) (s' : State),
    start_error env (F s) = Some e ->
    Initial env s = (r, s') ->
    r = (Empty, Some e) /\ watching (F s') = false
    /\ loops (W s') = loops (W s).
Proof.
  intros s e r s' He Hrun.
  assert (Hstart : forall force s1 es s2,
             startPullLoop env force s1 = (es, s2) ->
             same_config (F s) (F s1) ->
             es = Some e /\ watching (F s2) = false
             /\ loops (W s2) = loops (W s1)).
  { intros force s1 es s2 Hst (Hv & _).
    destruct (startPullLoop_effect _ _ _ _ Hst) as (Hes & _).
    unfold start_error in *. rewrite Hv in Hes. rewrite He in Hes.
    destruct (startPullLoop_cases env _ _ _ _ Hst)
      as [(Ht & _ & _ & Hl & _ & Hw) | [(Ht & _) | (Ht & _)]];
      rewrite Hv in Ht; rewrite Ht in He; try discriminate He.
    split_all; try assumption. unfold watching. rewrite Hw.
    destruct (NewWatcher_err env); [reflexivity |].
    destruct (Start_err env); [reflexivity | discriminate He]. }
  assert (Hfb : forall s0 r0 s1,
             Initial_fallback env s0 = (r0, s1) ->
             same_config (F s) (F s0) ->
             r0 = (Empty, Some e) /\ watching (F s1) = false
             /\ loops (W s1) = loops (W s0)).
  { intros s0 r0 s1 Hfb Hcfg.
    destruct (Initial_fallback_run env _ _ _ Hfb)
      as (ru & su & es & Hu & Hst & Hr).
    destruct (Update_frame env _ _ _ Hu) as (Hcfg' & _ & _ & Hl).
    destruct (Hstart false su es s1 Hst (same_config_trans _ _ _ Hcfg Hcfg'))
      as (-> & Hw & Hl').
    split_all; [exact Hr | exact Hw | congruence]. }
  rewrite Initial_run in Hrun.
  destruct (mirror (W s)) as [m|].
  - destruct (Initial_local env (m_modTime m) (recorded EvStat s))
      as [l s0] eqn:Hlocal.
    destruct (Initial_local_run env _ _ _ _ Hlocal) as (r1 & sl & Hload & Hout).
    destruct (loadBuf_frame env _ _ _ _ _ _ Hload) as (Hcfg & _ & _ & Hl).
    cbn in Hcfg, Hl.
    assert (Hcfg' : same_config (F s) (with_updatedAt (m_modTime m) (F sl))).
    { unfold same_config in *. cbn. exact Hcfg. }
    destruct (err_of r1).
    + destruct Hout as (-> & ->).
      destruct (Hfb _ _ _ Hrun Hcfg') as (? & ? & Hl').
      cbn in Hl'. split_all; try assumption. congruence.
    + destruct Hout as (es & Hst & ->). injection Hrun as <- <-.
      destruct (Hstart _ _ _ _ Hst Hcfg') as (-> & ? & Hl').
      cbn in Hl'. split_all; try assumption; try reflexivity. congruence.
  - destruct (Hfb _ _ _ Hrun (same_config_refl _)) as (? & ? & Hl').
    cbn in Hl'. now split_all.
Qed.

(** No driver at all: no watcher and no goroutine. *)
Lemma idle_step (a : Action) (s s' : State) :
  watcher (F s) = None -> loops (W s) = [] ->
  a <> CallInitial -> step env a s = Some s' ->
  a = CallClose /\ watcher (F s') = None /\ loops (W s') = []
  /\ trace (W s') = trace (W s) ++ [EvCancel].
Proof.
  intros Hw Hl Ha Hstep.
  destruct a as [| | |i|i|i|i]; unfold step in Hstep.
  - now elim Ha.
  - injection Hstep as <-.
    destruct (Close_effect s) as (_ & _ & Hw' & Hl' & Htr).
    rewrite Hw in Htr. split_all; [reflexivity | now apply Hw' | congruence
                                  | exact Htr].
  - unfold watching in Hstep. rewrite Hw in Hstep. discriminate.
  - rewrite Hl in Hstep. destruct i; discriminate.
  - rewrite Hl in Hstep. destruct i; discriminate.
  - rewrite Hl in Hstep. destruct i; discriminate.
  - rewrite Hl in Hstep. destruct i; discriminate.
Qed.

(** X4. For a vehicle that is not a [File] and an interval that is not
    positive, [Initial] starts neither a watcher nor a goroutine; from then
    on the only thing that can happen beside the caller's own calls is
    [Close], and nothing ever reads the source or calls [onUpdate] in the
    background. *)
Theorem X4_no_interval_no_background :
  forall (s : State) (r : V * option error) (s' : State),
    v_Type (vehicle (F s)) <> File -> interval (F s) <= 0 ->
    watcher (F s) = None -> loops (W s) = [] ->
    Initial env s = (r, s') ->
    watcher (F s') = None /\ loops (W s') = []
    /\ forall (acts : list Action) (s'' : State),
         ~ In CallInitial acts ->
         run env acts s' = Some s'' ->
         (forall a, In a acts -> a = CallClose)
         /\ exists evs,
              trace (W s'') = trace (W s') ++ evs
              /\ filter is_Read evs = [] /\ filter is_OnUpdate evs = [].
Proof.
  intros s r s' Ht Hi Hw Hl Hrun.
  apply VehicleType_eqb_File in Ht.
  assert (Hstart : forall force s1 es s2,
             startPullLoop env force s1 = (es, s2) ->
             same_config (F s) (F s1) -> s2 = s1).
  { intros force s1 es s2 Hst (Hv & _ & Hi' & _).
    destruct (startPullLoop_cases env _ _ _ _ Hst)
      as [(Ht' & _) | [(_ & Hpos & _) | (_ & _ & _ & ->)]];
      [rewrite Hv in Ht'; congruence | rewrite Hi' in Hpos; lia
      | reflexivity]. }
  assert (Hfb : forall s0 r0 s1,
             Initial_fallback env s0 = (r0, s1) ->
             same_config (F s) (F s0) ->
             watcher (F s1) = watcher (F s0) /\ loops (W s1) = loops (W s0)).
  { intros s0 r0 s1 Hfb Hcfg.
    destruct (Initial_fallback_run env _ _ _ Hfb)
      as (ru & su & es & Hu & Hst & Hr).
    destruct (Update_frame env _ _ _ Hu) as (Hcfg' & _ & Hw' & Hl').
    rewrite (Hstart _ _ _ _ Hst (same_config_trans _ _ _ Hcfg Hcfg')).
    now split. }
  assert (Hidle : watcher (F s') = None /\ loops (W s') = []).
  { rewrite Initial_run in Hrun.
    destruct (mirror (W s)) as [m|].
    - destruct (Initial_local env (m_modTime m) (recorded EvStat s))
        as [l s0] eqn:Hlocal.
      destruct (Initial_local_run env _ _ _ _ Hlocal)
        as (r1 & sl & Hload & Hout).
      destruct (loadBuf_frame env _ _ _ _ _ _ Hload) as (Hcfg & _ & Hw' & Hl').
      cbn in Hcfg, Hw', Hl'.
      assert (Hcfg' : same_config (F s)
                        (with_updatedAt (m_modTime m) (F sl))).
      { unfold same_config in *. cbn. exact Hcfg. }
      destruct (err_of r1).
      + destruct Hout as (-> & ->).
        destruct (Hfb _ _ _ Hrun Hcfg') as (Hw'' & Hl''). cbn in Hw'', Hl''.
        split; congruence.
      + destruct Hout as (es & Hst & ->). injection Hrun as _ <-.
        rewrite (Hstart _ _ _ _ Hst Hcfg'). cbn. split; congruence.
    - destruct (Hfb _ _ _ Hrun (same_config_refl _)) as (Hw' & Hl').
      cbn in Hw', Hl'. split; congruence. }
  destruct Hidle as (Hw' & Hl'). split_all; try assumption.
  clear - Hw' Hl'. intros acts. revert s' Hw' Hl'.
  induction acts as [|a acts IH]; intros s' Hw' Hl' s'' Hno Hrun;
    cbn in Hrun.
  - injection Hrun as <-. split; [intros a []|].
    exists []. now rewrite app_nil_r.
  - destruct (step env a s') as [s1|] eqn:Hstep; [| discriminate].
    assert (Ha : a <> CallInitial) by (intros ->; apply Hno; now left).
    destruct (idle_step _ _ _ Hw' Hl' Ha Hstep) as (-> & Hw1 & Hl1 & Htr1).
    destruct (IH s1 Hw1 Hl1 s'' (fun H => Hno (or_intror H)) Hrun)
      as (Hall & evs & Htr & Hr & Hu).
    split.
    + intros a [<- | Hin]; [reflexivity | now apply Hall].
    + exists (EvCancel :: evs). rewrite Htr, Htr1, <- app_assoc.
      split; [reflexivity |]. cbn. now split.
Qed.

(** X5. [Update] on a [File] vehicle never writes the mirror and never
    touches its timestamps, whatever the source answers: the file is the
    source, and only other vehicles are mirrored. *)
Theorem X5_file_vehicle_is_never_mirrored :
  forall (s : State) (r : Result) (s' : State),
    v_Type (vehicle (F s)) = File ->
    Update env s = (r, s') ->
    mirror (W s') = mirror (W s)
    /\ exists evs,
         trace (W s') = trace (W s) ++ evs
         /\ filter touches_mirror evs = [].
Proof.
  intros s r s' Ht Hrun.
  destruct (rr_err (answer_of s)) as [e|] eqn:Hrr.
  - rewrite (Update_read_failed env s e Hrr) in Hrun.
    inversion Hrun; subst; cbn. split; [reflexivity |].
    eexists. split; reflexivity.
  - rewrite (Update_read_ok env s Hrr), Ht in Hrun. cbn [VehicleType_eqb negb] in Hrun.
    destruct (loadBuf_nopersist _ _ _ _ _ Hrun) as (Hm & evs & Htr & Hno).
    rewrite after_Read_mirror in Hm. rewrite after_Read_trace in Htr.
    split; [exact Hm |].
    eexists. rewrite Htr, <- app_assoc. split; [reflexivity |].
    cbn. exact Hno.
Qed.

(** A commit under the persist flag leaves the committed bytes in the
    mirror. *)
Lemma loadBuf_persisted (s : State) (buf : slice) (h : HashType)
    (r : Result) (s' : State) :
  loadBuf env buf h true s = (r, s') ->
  unchanged_of r = false -> err_of r = None ->
  exists b c,
    buf = Some b /\ parser (F s) b = (c, None) /\ r = (c, false, None)
    /\ hash (F s') = h /\ parser (F s') = parser (F s)
    /\ mirror (W s') =
         Some {| m_data := Some b;
                 m_modTime := clock env (S (clock_reads (W s))) |}.
Proof.
  intros Hrun Hu He. unfold loadBuf in Hrun. unfold_calls. unfold_monad.
  cbn in Hrun.
  destruct (Equal (hash (F s)) h); cbn in Hrun;
    [inversion Hrun; subst; discriminate Hu |].
  destruct buf as [b|]; cbn in Hrun;
    [| inversion Hrun; subst; discriminate Hu].
  destruct (parser (F s) b) as [c [e|]] eqn:Hp; cbn in Hrun;
    [inversion Hrun; subst; discriminate He |].
  destruct (v_Write (vehicle (F s)) (vehicle_writes (W s)) b); cbn in Hrun;
    [inversion Hrun; subst; discriminate He |].
  exists b, c.
  destruct (onUpdate (F s)); cbn in Hrun; inversion Hrun; subst; cbn;
    split_all; reflexivity || assumption.
Qed.

(** X6. What [SideUpdate] commits can be bootstrapped from: after it
    returns a new value, the mirror holds exactly the bytes it was given,
    and [Initial] on a fetcher with the same parser over that mirror
    returns the same value and holds the same fingerprint, without reading
    the source (provided its driver starts and it does not hold that
    fingerprint already). *)
Theorem X6_persist_then_bootstrap :
  forall (s : State) (buf : slice) (r : Result) (s' : State),
    SideUpdate env buf s = (r, s') ->
    unchanged_of r = false -> err_of r = None ->
    exists b,
      buf = Some b /\ mirror_buf s' = Some b
      /\ forall (f2 : Fetcher) (r2 : V * option error) (s2 : State),
           parser f2 = parser (F s) ->
           Equal (hash f2) (MakeHash b) = false ->
           start_error env f2 = None ->
           Initial env {| F := f2; W := W s' |} = (r2, s2) ->
           r2 = (value_of r, None)
           /\ hash (F s2) = hash (F s')
           /\ exists evs,
                trace (W s2) = trace (W s') ++ evs
                /\ filter is_Read evs = [].
Proof.
  intros s buf r s' Hrun Hu He. unfold SideUpdate in Hrun.
  destruct (loadBuf_persisted _ _ _ _ _ Hrun Hu He)
    as (b & c & -> & Hp & -> & Hh & _ & Hm).
  exists b. cbn [contents_of] in *.
  assert (Hbuf : mirror_buf s' = Some b)
    by (unfold mirror_buf; now rewrite Hm).
  split_all; [reflexivity | exact Hbuf |].
  intros f2 r2 s2 Hp2 Hne Hst Hinit.
  rewrite Initial_run in Hinit. cbn [W] in Hinit. rewrite Hm in Hinit.
  destruct (Initial_local env _ _) as [l s0] eqn:Hlocal in Hinit.
  destruct (Initial_local_run env _ _ _ _ Hlocal) as (r1 & sl & Hload & Hout).
  assert (Hbuf2 : mirror_buf (recorded EvStat {| F := f2; W := W s' |})
                  = Some b) by exact Hbuf.
  rewrite Hbuf2 in Hload. cbn [contents_of] in Hload.
  destruct (loadBuf_events env _ _ _ _ _ _ Hload) as (evl & Htrl & Hnr & _).
  destruct (loadBuf_frame env _ _ _ _ _ _ Hload) as ((Hv & _ & Hi & _) & _).
  destruct (loadBuf_cases env _ _ _ _ _ _ Hload)
    as [(Heq & _) | [(_ & Hb' & _)
       | [(b' & c' & e' & _ & Hb' & Hp' & _)
       | [(b' & c' & e' & _ & _ & _ & Hfalse & _)
       | (b' & c' & _ & Hb' & Hp' & _ & Hr1 & HF & _)]]]];
    cbn in *; try congruence.
  injection Hb' as <-. rewrite Hp2, Hp in Hp'. injection Hp' as <-.
  rewrite Hr1 in Hout. cbn in Hout. destruct Hout as (es & Hstart & ->).
  injection Hinit as <- <-.
  destruct (startPullLoop_effect _ _ _ _ Hstart) as (Hes & Hh2 & _ & _ & _ & Htr).
  cbn in Hes, Hh2, Htr. unfold start_error in Hes, Hst. cbn in Hes.
  rewrite Hv, Hst in Hes. subst es.
  split_all.
  - reflexivity.
  - rewrite Hh2, HF, Hh. reflexivity.
  - eexists. rewrite Htr, Htrl, <- !app_assoc. split; [reflexivity |].
    cbn. rewrite filter_app, Hnr. apply start_events_no_Read.
Qed.

(** [loadBuf] reads nothing of a state but the stored fingerprint, the
    parser, the callback, the vehicle's writes and the clock. *)
Lemma loadBuf_reads_only (s1 s2 : State) (buf : slice) (h : HashType)
    (updateFile : bool) (r1 r2 : Result) (s1' s2' : State) :
  same_inputs s1 s2 -> same_outputs s1 s2 ->
  loadBuf env buf h updateFile s1 = (r1, s1') ->
  loadBuf env buf h updateFile s2 = (r2, s2') ->
  r1 = r2 /\ same_outputs s1' s2'
  /\ exists evs,
       trace (W s1') = trace (W s1) ++ evs
       /\ trace (W s2') = trace (W s2) ++ evs.
Proof.
  intros (Hh & Hp & Hcb & Hv & Hc & Hw) (_ & Hu & Ha & Hm) H1 H2.
  unfold loadBuf in H1, H2. unfold_calls. unfold_monad.
  cbn in H1, H2. unfold same_outputs.
  rewrite Hh, Hc in H1.
  assert (Hfin : forall (x1 x2 : State) (evs : list Event),
             hash (F x1) = hash (F x2) ->
             updatedAt (F x1) = updatedAt (F x2) ->
             attempt (backoff (F x1)) = attempt (backoff (F x2)) ->
             mirror (W x1) = mirror (W x2) ->
             trace (W x1) = trace (W s1) ++ evs ->
             trace (W x2) = trace (W s2) ++ evs ->
             (hash (F x1) = hash (F x2)
              /\ updatedAt (F x1) = updatedAt (F x2)
              /\ attempt (backoff (F x1)) = attempt (backoff (F x2))
              /\ mirror (W x1) = mirror (W x2))
             /\ exists evs,
                  trace (W x1) = trace (W s1) ++ evs
                  /\ trace (W x2) = trace (W s2) ++ evs).
  { intros x1 x2 evs ? ? ? ? ? ?. split; [now split_all | now exists evs]. }
  destruct (Equal (hash (F s2)) h).
  { destruct updateFile; cbn in H1, H2; inversion H1; inversion H2; subst;
      (split; [reflexivity |]).
    - eapply Hfin; cbn; rewrite ?Hm; try eassumption; reflexivity.
    - apply (Hfin _ _ []); cbn; rewrite ?app_nil_r; try assumption;
        reflexivity. }
  destruct buf as [b|]; cbn in H1, H2.
  2: { inversion H1; inversion H2; subst. split; [reflexivity |].
       apply (Hfin _ _ []); cbn; rewrite ?app_nil_r; try assumption;
         reflexivity. }
  rewrite Hp in H1.
  destruct (parser (F s2) b) as [c [e|]]; cbn in H1, H2.
  { inversion H1; inversion H2; subst. split; [reflexivity |].
    eapply Hfin; cbn; rewrite ?Ha; try eassumption; reflexivity. }
  destruct updateFile; cbn in H1, H2.
  - rewrite Hv, Hw in H1.
    destruct (v_Write (vehicle (F s2)) (vehicle_writes (W s2)) b);
      cbn in H1, H2.
    + inversion H1; inversion H2; subst. split; [reflexivity |].
      eapply Hfin; cbn; rewrite <- ?app_assoc; try eassumption; reflexivity.
    + rewrite Hcb in H1.
      destruct (onUpdate (F s2)); cbn in H1, H2;
        inversion H1; inversion H2; subst; (split; [reflexivity |]);
        eapply Hfin; cbn; rewrite <- ?app_assoc; try eassumption;
        reflexivity.
  - rewrite Hcb in H1.
    destruct (onUpdate (F s2)); cbn in H1, H2;
      inversion H1; inversion H2; subst; (split; [reflexivity |]);
      eapply Hfin; cbn; rewrite <- ?app_assoc; try eassumption;
      reflexivity.
Qed.

(** X7. [Close] does not switch the pipeline off: [SideUpdate] on a closed
    fetcher returns what it returns on the open one, performs the same
    actions (parse, write, callback) and leaves the same fingerprint,
    timestamp, attempt counter and mirror. *)
Theorem X7_SideUpdate_ignores_Close :
  forall (s : State) (buf : slice) (r1 r2 : Result) (s1 s2 : State),
    SideUpdate env buf s = (r1, s1) ->
    SideUpdate env buf (exec Close s) = (r2, s2) ->
    r2 = r1 /\ same_outputs s2 s1
    /\ exists evs,
         trace (W s1) = trace (W s) ++ evs
         /\ trace (W s2) = trace (W (exec Close s)) ++ evs.
Proof.
  intros s buf r1 r2 s1 s2 H1 H2. unfold SideUpdate in *.
  assert (Hin : same_inputs (exec Close s) s /\ same_outputs (exec Close s) s).
  { unfold same_inputs, same_outputs, Close. unfold_calls. unfold_monad.
    cbn. destruct (watcher (F s)); cbn; now split_all. }
  destruct Hin as (Hin & Hout).
  destruct (loadBuf_reads_only _ _ _ _ _ _ _ _ _ Hin Hout H2 H1)
    as (Hr & Ho & evs & Ht2 & Ht1).
  split_all; try assumption. now exists evs.
Qed.

(** X8. One commit calls [onUpdate] at most once, and exactly when it
    returns a new value without error and a callback is set; the argument
    is the value returned.  The stored fingerprint changes in no other
    execution, and then it is the fingerprint given. *)
Theorem X8_callback_goes_with_commit :
  forall (s : State) (buf : slice) (h : HashType) (updateFile : bool)
         (r : Result) (s' : State),
    loadBuf env buf h updateFile s = (r, s') ->
    exists evs,
      trace (W s') = trace (W s) ++ evs
      /\ filter is_OnUpdate evs =
           (if onUpdate (F s) && negb (unchanged_of r)
               && match err_of r with None => true | Some _ => false end
            then [EvOnUpdate (value_of r)] else [])
      /\ (hash (F s') <> hash (F s) ->
          unchanged_of r = false /\ err_of r = None /\ hash (F s') = h)
      /\ (unchanged_of r = false -> err_of r = None -> hash (F s') = h).
Proof.
  intros s buf h updateFile r s' Hrun.
  destruct (loadBuf_cases env _ _ _ _ _ _ Hrun)
    as [(Heq & Hr & HF & Htr) | [(Hne & Hb & Hr & HF & Htr & _)
       | [(b & c & e & Hne & Hb & Hp & Hr & HF & Htr & _)
       | [(b & c & e & Hne & Hb & Hp & _ & _ & Hr & HF & Htr & _)
       | (b & c & Hne & Hb & Hp & _ & Hr & HF & Htr)]]]];
    rewrite Hr, HF; unfold unchanged_of, err_of, value_of; cbn.
  - eexists; split; [exact Htr |].
    rewrite andb_false_r. split_all; try congruence.
    now destruct updateFile.
  - exists []. rewrite app_nil_r. split; [exact Htr |].
    rewrite andb_false_r. split_all; try congruence. reflexivity.
  - eexists; split; [exact Htr |].
    rewrite andb_false_r. split_all; try congruence. reflexivity.
  - eexists; split; [exact Htr |].
    rewrite andb_false_r. split_all; try congruence. reflexivity.
  - eexists; split; [exact Htr |].
    rewrite !andb_true_r. split_all; try reflexivity.
    + cbn. rewrite filter_app.
      now destruct updateFile, (onUpdate (F s)).
    + intros _. now split_all.
Qed.

Lemma Sub_range (t u : Time) :
  Int64.min_int <= Sub t u <= Int64.max_int.
Proof.
  unfold Sub, Int64.min_int, Int64.max_int.
  destruct (Z.ltb_spec (t - u) (- 2 ^ 63)); [lia |].
  destruct (Z.ltb_spec (2 ^ 63 - 1) (t - u)); lia.
Qed.

Lemma Sub_saturates (t u : Time) :
  Int64.max_int < t - u -> Sub t u = Int64.max_int.
Proof.
  unfold Sub, Int64.min_int, Int64.max_int. intros H.
  destruct (Z.ltb_spec (t - u) (- 2 ^ 63)); [lia |].
  destruct (Z.ltb_spec (2 ^ 63 - 1) (t - u)); lia.
Qed.

Lemma cut_le (a b : Z) : (if a <? b then a else b) <= b.
Proof. destruct (Z.ltb_spec a b); lia. Qed.

(** The first wait of [pullLoop] never exceeds the difference computed at
    its first line. *)
Lemma pullLoop_enter_delay (forceUpdate : bool) (s : State) (d : Duration)
    (s' : State) :
  pullLoop_enter env forceUpdate s = (d, s') ->
  d <= Int64.sub (interval (F s))
         (Sub (clock env (clock_reads (W s))) (updatedAt (F s)))
  /\ exists evs, trace (W s') = trace (W s) ++ evs ++ [EvNewTimer d].
Proof.
  intros Hrun.
  set (elapsed := Sub (clock env (clock_reads (W s))) (updatedAt (F s))).
  set (first := Int64.sub (interval (F s)) elapsed).
  unfold pullLoop_enter in Hrun.
  unfold bind at 1 in Hrun. unfold getF at 1 in Hrun.
  unfold bind at 1 in Hrun. unfold time_Since, time_Now in Hrun.
  unfold_monad. cbn in Hrun. fold elapsed in Hrun. fold first in Hrun.
  set (cut := if interval (F s) <? first then interval (F s) else first)
    in *.
  assert (Hcut : cut <= first) by apply cut_le.
  clearbody cut.
  assert (Hmid : exists s1 evs,
             trace (W s1) = trace (W s) ++ evs
             /\ s' = recorded (EvNewTimer d) s1
             /\ d <= cut).
  { destruct forceUpdate.
    - destruct (updateWithLog env _) as [[] s1] eqn:Hu in Hrun.
      destruct (updateWithLog_events env _ _ Hu) as (evs & Htr & _).
      cbn in Htr.
      exists s1, (EvLog Warn :: EvRead (ctx (F s)) (hash (F s)) :: evs).
      unfold_calls. unfold_monad.
      split; [rewrite Htr, <- app_assoc; reflexivity |].
      destruct (0 <? attempt (backoff (F s1)))%N; cbn in Hrun;
        injection Hrun as Hd Hs; rewrite <- Hs, <- Hd;
        (split; [reflexivity |]); [apply shorter_le | lia].
    - exists {| F := F s;
                W := with_clock_reads (S (clock_reads (W s))) (W s) |}, [].
      rewrite app_nil_r. unfold_calls. unfold_monad. cbn. cbn in Hrun.
      split; [reflexivity |].
      destruct (0 <? attempt (backoff (F s)))%N; cbn in Hrun;
        injection Hrun as Hd Hs; rewrite <- Hs, <- Hd;
        (split; [reflexivity |]); [apply shorter_le | lia]. }
  destruct Hmid as (s1 & evs & Htr & -> & Hd).
  split; [exact (Z.le_trans _ _ _ Hd Hcut) |]. exists evs. cbn. now rewrite Htr, <- app_assoc.
Qed.

(** X9. When more than the interval has passed since [updatedAt] as
    [pullLoop] starts, its timer is created with a negative duration and
    is due at once.  The difference is taken before the forced refresh
    runs, so the refresh forced by a stale mirror is followed by a second
    cycle right away. *)
Theorem X9_stale_fetcher_polls_at_once :
  forall (s : State) (forceUpdate : bool) (d : Duration) (s' : State),
    0 < interval (F s) ->
    interval (F s) < Sub (clock env (clock_reads (W s))) (updatedAt (F s)) ->
    pullLoop_enter env forceUpdate s = (d, s') ->
    d < 0
    /\ exists evs, trace (W s') = trace (W s) ++ evs ++ [EvNewTimer d].
Proof.
  intros s forceUpdate d s' Hpos Hstale Hrun.
  destruct (pullLoop_enter_delay _ _ _ _ Hrun) as (Hd & Hev).
  split; [| exact Hev].
  pose proof (Sub_range (clock env (clock_reads (W s))) (updatedAt (F s)))
    as Hr.
  rewrite Int64_sub_exact in Hd; [lia |].
  unfold Int64.in_range, Int64.min_int, Int64.max_int in *. lia.
Qed.

(** X10. After a bootstrap that found no mirror and could not read the
    source, [updatedAt] is still the zero time; for any clock after 1970
    the elapsed time then saturates, and the goroutine that [Initial]
    spawned creates its first timer with a negative duration: the first
    retry is due at once, whatever the backoff delay. *)
Theorem X10_failed_bootstrap_retries_at_once :
  forall (s : State) (e : error) (r : V * option error) (s' : State),
    updatedAt (F s) = time.zero ->
    mirror (W s) = None ->
    rr_err (answer_of s) = Some e ->
    v_Type (vehicle (F s)) <> File ->
    0 < interval (F s) < Int64.max_int ->
    loops (W s) = [] ->
    (forall k, 0 <= clock env k) ->
    Initial env s = (r, s') ->
    r = (Empty, Some e)
    /\ updatedAt (F s') = time.zero
    /\ loops (W s') = [Spawned false]
    /\ exists s'' d,
         step env (LoopStart 0) s' = Some s''
         /\ trace (W s'') = trace (W s') ++ [EvNewTimer d]
         /\ d < 0
         /\ loops (W s'') = [Waiting false].
Proof.
  intros s e r s' Hz Hm Hrr Ht Hi Hl Hclock Hrun.
  rewrite Initial_run, Hm in Hrun.
  destruct (Initial_fallback_run env _ _ _ Hrun)
    as (ru & s1 & es & Hu & Hst & Hr).
  assert (Hrr' : rr_err (answer_of (recorded EvStat s)) = Some e)
    by exact Hrr.
  rewrite (Update_read_failed env _ e Hrr') in Hu. injection Hu as <- <-.
  apply VehicleType_eqb_File in Ht.
  destruct (startPullLoop_cases env _ _ _ _ Hst)
    as [(Ht' & _) | [(_ & _ & -> & Htr & Hl' & HF) | (_ & Hle & _)]];
    cbn in *; [congruence | | lia].
  rewrite Hl in Hl'. cbn in Hl'.
  assert (Hup : updatedAt (F s') = time.zero) by (rewrite HF; exact Hz).
  assert (Hiv : interval (F s') = interval (F s)) by (rewrite HF; reflexivity).
  split_all; [exact Hr | exact Hup | exact Hl' |].
  destruct (pullLoop_enter env false s') as [d s2] eqn:Hp.
  exists (exec (set_loop 0 (Waiting false)) s2), d.
  assert (Hev : trace (W s2) = trace (W s') ++ [EvNewTimer d]).
  { clear - Hp. unfold pullLoop_enter in Hp. unfold_calls. unfold_monad.
    cbn in Hp.
    destruct (0 <? attempt (backoff (F s')))%N; cbn in Hp;
      injection Hp as Hd Hs; rewrite <- Hs, <- Hd; reflexivity. }
  destruct (pullLoop_enter_same_driver env _ _ _ _ Hp) as (_ & _ & Hl2).
  destruct (pullLoop_enter_delay _ _ _ _ Hp) as (Hd & _).
  split_all.
  - unfold step. rewrite Hl'. cbn [nth_error]. unfold exec, bind.
    now rewrite Hp.
  - exact Hev.
  - rewrite Hup, Hiv in Hd.
    rewrite Sub_saturates in Hd.
    + rewrite Int64_sub_exact in Hd;
        unfold Int64.in_range, Int64.min_int, Int64.max_int in *; lia.
    + specialize (Hclock (clock_reads (W s'))).
      unfold Int64.max_int, time.zero, Second. lia.
  - destruct (set_loop_effect 0 (Waiting false) s2) as (_ & Hl3 & _).
    rewrite Hl3, Hl2, Hl'. reflexivity.
Qed.

(** X11. [Close] always returns [nil]; it leaves the fingerprint, the
    timestamp, the attempt counter and the mirror alone; and closing twice
    leaves the fetcher as closing once does. *)
Theorem X11_Close_is_idempotent :
  forall (s : State),
    fst (Close s) = None
    /\ same_outputs (exec Close s) s
    /\ F (exec Close (exec Close s)) = F (exec Close s)
    /\ loops (W (exec Close (exec Close s))) = loops (W s).
Proof.
  intros s. unfold same_outputs, Close. unfold_calls. unfold_monad. cbn.
  destruct (watcher (F s)) as [w|] eqn:Hw; cbn; rewrite ?Hw; cbn;
    split_all; reflexivity.
Qed.

(** X12. While the source cannot be read, every notification of the
    watcher costs one read and adds one to the attempt counter, and none
    changes the fingerprint or the timestamp or calls [onUpdate]: after [n]
    notifications the counter has grown by [n]. *)
Theorem X12_failed_notifications_count :
  forall (n : nat) (s s' : State),
    (forall k c h, rr_err (v_Read (vehicle (F s)) k c h) <> None) ->
    run env (repeat Notify n) s = Some s' ->
    attempt (backoff (F s')) = (attempt (backoff (F s)) + N.of_nat n)%N
    /\ hash (F s') = hash (F s)
    /\ updatedAt (F s') = updatedAt (F s)
    /\ exists evs,
         trace (W s') = trace (W s) ++ evs
         /\ List.length (filter is_Read evs) = n
         /\ filter is_OnUpdate evs = [].
Proof.
  induction n as [|n IH]; intros s s' Hfail Hrun; cbn in Hrun.
  - injection Hrun as <-. split_all; try reflexivity; [lia |].
    exists []. now rewrite app_nil_r.
  - destruct (watching (F s)); [| discriminate].
    unfold updateCallback, exec in Hrun.
    destruct (updateWithLog_run env s) as (lvl & Hlog).
    rewrite Hlog in Hrun. cbn [snd] in Hrun.
    destruct (rr_err (answer_of s)) as [e|] eqn:Hrr;
      [| now elim (Hfail _ _ _ Hrr)].
    unfold exec in Hrun. rewrite (Update_read_failed env s e Hrr) in Hrun.
    cbn [snd] in Hrun.
    apply IH in Hrun; [| exact Hfail].
    cbn in Hrun. destruct Hrun as (Ha & Hh & Hu & evs & Htr & Hn & Ho).
    split_all; try assumption.
    + rewrite Ha. lia.
    + eexists. rewrite Htr, <- !app_assoc. split; [reflexivity |].
      cbn. now rewrite Hn, Ho.
Qed.

(** X22. A mirror that does not parse is repaired: when the source then
    answers with contents that parse and can be written, [Initial] returns
    the value of the source, the mirror holds the bytes of the source, the
    fingerprint is the source's, and the attempt counted for the bad
    mirror is forgotten. *)
Theorem X22_bad_mirror_is_replaced :
  forall (s : State) (m : MirrorFile) (b : bytes) (c : V) (e : error)
         (b2 : bytes) (c2 : V),
    mirror (W s) = Some m -> m_data m = Some b ->
    Equal (hash (F s)) (MakeHash b) = false ->
    parser (F s) b = (c, Some e) ->
    rr_err (answer_of s) = None -> rr_buf (answer_of s) = Some b2 ->
    Equal (hash (F s)) (rr_hash (answer_of s)) = false ->
    parser (F s) b2 = (c2, None) ->
    v_Type (vehicle (F s)) <> File ->
    write_of s b2 = None ->
    forall (r : V * option error) (s' : State),
      Initial env s = (r, s') ->
      r = (c2, None)
      /\ mirror_buf s' = Some b2
      /\ hash (F s') = rr_hash (answer_of s)
      /\ attempt (backoff (F s')) = 0%N.
Proof.
  intros s m b c e b2 c2 Hm Hb Hne Hp Hrr Hbuf Hne2 Hp2 Ht Hw r s' Hrun.
  rewrite Initial_run, Hm in Hrun.
  destruct (Initial_local env (m_modTime m) (recorded EvStat s))
    as [l s0] eqn:Hlocal.
  destruct (Initial_local_run env _ _ _ _ Hlocal) as (r1 & sl & Hload & Hout).
  assert (Hmb : mirror_buf (recorded EvStat s) = Some b)
    by (unfold mirror_buf; cbn; now rewrite Hm).
  rewrite Hmb in Hload. cbn [contents_of] in Hload.
  assert (Hwr : vehicle_writes (W sl) = vehicle_writes (W s)
                /\ vehicle_reads (W sl) = vehicle_reads (W s)).
  { clear - Hload. unfold loadBuf in Hload. unfold_calls. unfold_monad.
    cbn in Hload.
    repeat match type of Hload with
           | context [if ?c then _ else _] => destruct c; cbn in Hload
           | context [match ?x with Some _ => _ | None => _ end] =>
               destruct x; cbn in Hload
           | context [let (_, _) := ?x in _] => destruct x; cbn in Hload
           end;
      inversion Hload; subst; split; reflexivity. }
  destruct Hwr as (Hwr & Hrd).
  destruct (loadBuf_cases env _ _ _ _ _ _ Hload)
    as [(Heq & _) | [(_ & Hb' & _)
       | [(b' & c' & e' & _ & Hb' & Hp' & Hr1 & HF & _)
       | [(b' & c' & e' & _ & _ & _ & Hfalse & _)
       | (b' & c' & _ & Hb' & Hp' & _)]]]];
    cbn in *; try congruence.
  rewrite Hr1 in Hout. cbn in Hout. destruct Hout as (-> & Hs0).
  destruct (Initial_fallback_run env _ _ _ Hrun)
    as (ru & s1 & es & Hu & Hst & Hr).
  assert (Hans : answer_of s0 = answer_of s).
  { rewrite Hs0. unfold answer_of. cbn. rewrite HF, Hrd. reflexivity. }
  assert (Hrr0 : rr_err (answer_of s0) = None) by (rewrite Hans; exact Hrr).
  rewrite (Update_read_ok env s0 Hrr0), Hans, Hbuf in Hu.
  assert (Hty : VehicleType_eqb (v_Type (vehicle (F s0))) File = false).
  { rewrite Hs0. cbn. rewrite HF. cbn. now apply VehicleType_eqb_File. }
  rewrite Hty in Hu. cbn [negb] in Hu.
  assert (HF0 : hash (F (after_Read s0)) = hash (F s)
                /\ parser (F (after_Read s0)) = parser (F s)
                /\ write_of (after_Read s0) b2 = write_of s b2).
  { rewrite after_Read_F, Hs0. unfold write_of. cbn. rewrite HF. cbn.
    rewrite Hwr. now split_all. }
  destruct HF0 as (Hh0 & Hp0 & Hw0).
  destruct (loadBuf_cases env _ _ _ _ _ _ Hu)
    as [(Heq & _) | [(_ & Hb3 & _)
       | [(b3 & c3 & e3 & _ & Hb3 & Hp3 & _)
       | [(b3 & c3 & e3 & _ & Hb3 & _ & _ & Hw3 & _)
       | (b3 & c3 & _ & Hb3 & Hp3 & _ & Hru & HFu & _)]]]];
    try (rewrite Hh0 in Heq; congruence); try discriminate Hb3;
    injection Hb3 as <-.
  - rewrite Hp0, Hp2 in Hp3. discriminate Hp3.
  - rewrite Hw0, Hw in Hw3. discriminate Hw3.
  - rewrite Hp0, Hp2 in Hp3. injection Hp3 as <-.
    assert (Hun : unchanged_of ru = false) by (rewrite Hru; reflexivity).
    assert (Her : err_of ru = None) by (rewrite Hru; reflexivity).
    destruct (loadBuf_persisted _ _ _ _ _ Hu Hun Her)
      as (b4 & c4 & Hb4 & _ & _ & _ & _ & Hmir).
    injection Hb4 as <-.
    destruct (startPullLoop_effect _ _ _ _ Hst)
      as (Hes & Hh & _ & Ha & Hmi & _).
    destruct (loadBuf_frame env _ _ _ _ _ _ Hu) as ((Hv & _) & _).
    unfold start_error in Hes. rewrite Hv, after_Read_F, Hty in Hes.
    subst es. rewrite Hru in Hr. cbn in Hr.
    split_all.
    + exact Hr.
    + unfold mirror_buf. now rewrite Hmi, Hmir.
    + rewrite Hh, HFu. reflexivity.
    + rewrite Ha, HFu. reflexivity.
Qed.

(** The wait [pullLoop] sets after a cycle, from the attempt counter the
    cycle's [Update] left. *)
Lemma pullLoop_tick_delay (s : State) (d : Duration) (s' : State) :
  pullLoop_tick env s = (d, s') ->
  let n := attempt (backoff (F (exec (Update env) s))) in
  let delay := ForAttempt (Min (backoff (F s))) (Max (backoff (F s))) n in
  d = (if (0 <? n)%N
       then if delay <? interval (F s) then delay else interval (F s)
       else interval (F s)).
Proof.
  intros Hrun. unfold pullLoop_tick in Hrun. unfold bind at 1 in Hrun.
  destruct (updateWithLog_run env s) as (lvl & Hlog).
  rewrite Hlog in Hrun. clear Hlog.
  unfold exec in *. destruct (Update env s) as [ru s1] eqn:Hu. cbn [snd].
  destruct (Update_frame env _ _ _ Hu) as ((_ & _ & Hi & _ & Hmin & Hmax) & _).
  unfold_calls. unfold_monad. cbn in Hrun. cbv zeta.
  rewrite <- Hi, <- Hmin, <- Hmax.
  destruct (0 <? attempt (backoff (F s1)))%N; cbn in Hrun;
    injection Hrun as Hd _; now rewrite <- Hd.
Qed.

(** X23. What shortens the wait after a cycle of [pullLoop]: a failed
    read of the source does, through the backoff delay of the attempt just
    counted.  A cycle whose fingerprint is the stored one, or whose
    contents parse, is followed by the full interval, even when the parsed
    contents could not be written to the mirror and the cycle logged an
    error. *)
Theorem X23_only_read_and_parse_failures_shorten_the_wait :
  forall (s : State) (d : Duration) (s' : State),
    pullLoop_tick env s = (d, s') ->
    (forall e, rr_err (answer_of s) = Some e ->
       let delay := ForAttempt (Min (backoff (F s))) (Max (backoff (F s)))
                               (N.succ (attempt (backoff (F s)))) in
       d = if delay <? interval (F s) then delay else interval (F s))
    /\ (rr_err (answer_of s) = None ->
        Equal (hash (F s)) (rr_hash (answer_of s)) = true
        \/ (exists b c, rr_buf (answer_of s) = Some b
                        /\ parser (F s) b = (c, None)) ->
        d = interval (F s)).
Proof.
  intros s d s' Hrun. pose proof (pullLoop_tick_delay _ _ _ Hrun) as Hd.
  cbv zeta in Hd. unfold exec in Hd. split.
  - intros e Hrr. rewrite (Update_read_failed env s e Hrr) in Hd.
    cbn in Hd.
    destruct (N.ltb_spec 0 (N.succ (attempt (backoff (F s))))); [| lia].
    exact Hd.
  - intros Hrr Hok. rewrite (Update_read_ok env s Hrr) in Hd.
    destruct (loadBuf env _ _ _ (after_Read s)) as [ru s1] eqn:Hu.
    cbn [snd] in Hd.
    assert (Hz : attempt (backoff (F s1)) = 0%N).
    { destruct (loadBuf_cases env _ _ _ _ _ _ Hu)
        as [(_ & _ & HF & _) | [(Hne & Hb & _)
           | [(b & c & e & Hne & Hb & Hp & _)
           | [(b & c & e & _ & _ & _ & _ & _ & _ & HF & _)
           | (b & c & _ & _ & _ & _ & _ & HF & _)]]]];
        try (rewrite HF; reflexivity);
        rewrite after_Read_F in *;
        destruct Hok as [Heq | (b' & c' & Hb' & Hp')]; congruence. }
    rewrite Hz in Hd. exact Hd.
Qed.

End More.

(** ** Properties of the adapter base *)

Section Base.
Import Outbound.

Lemma nonempty_true (s : string) : nonempty s = true <-> s <> EmptyString.
Proof.
  unfold nonempty. destruct (String.eqb_spec s EmptyString); cbn;
    split; congruence.
Qed.

(** X13. [DialOptions] has an option for a field exactly when the field is
    set: the interface when it is not empty, the routing mark when it is
    not zero, one option for the stack preference unless it is dual stack,
    fast open and multipath only as [true].  No option comes twice and
    there are five at most. *)
Theorem X13_DialOptions_follow_the_fields :
  forall (b : Base),
    (forall i, In (WithInterface i) (DialOptions b) <->
               i = iface b /\ i <> EmptyString)
    /\ (forall m, In (WithRoutingMark m) (DialOptions b) <->
                  m = rmark b /\ m <> 0)
    /\ (forall v, In (WithOnlySingleStack v) (DialOptions b) <->
                  (prefer b = IPv4Only /\ v = true)
                  \/ (prefer b = IPv6Only /\ v = false))
    /\ (In WithPreferIPv4 (DialOptions b) <-> prefer b = IPv4Prefer)
    /\ (In WithPreferIPv6 (DialOptions b) <-> prefer b = IPv6Prefer)
    /\ (forall t, In (WithTFO t) (DialOptions b) <-> t = true /\ tfo b = true)
    /\ (forall t, In (WithMPTCP t) (DialOptions b) <->
                  t = true /\ mpTcp b = true)
    /\ NoDup (DialOptions b)
    /\ (List.length (DialOptions b) <= 5)%nat.
Proof.
  intros [nm ad ifc ty u xu tf mp rm i pf]. unfold DialOptions. cbn.
  destruct (nonempty ifc) eqn:Hifc;
    [apply nonempty_true in Hifc
    | apply Bool.not_true_iff_false in Hifc; rewrite nonempty_true in Hifc;
      assert (ifc = EmptyString)
        by (destruct (string_dec ifc EmptyString); tauto)];
    (destruct (Z.eqb_spec rm 0); cbn);
    destruct pf, tf, mp; cbn;
    split_all;
    try (intros; split;
         [intros Hin;
          repeat (destruct Hin as [Hin | Hin];
                  [try discriminate Hin; try (injection Hin as <-) |]);
          try contradiction; intuition congruence
         | intuition (subst; try congruence; try discriminate; auto 10)]);
    try (split;
         [intros Hin;
          repeat (destruct Hin as [Hin | Hin]; [try discriminate Hin |]);
          try contradiction; try reflexivity
         | intros; try discriminate; auto 10]);
    try lia;
    try (repeat constructor; cbn; intuition discriminate).
Qed.

(** X14. [Id] keeps the identifier a base has; it makes one when there is
    none, and when what it made is not empty every later [Id] returns that
    same identifier and asks for no new one.  No other field changes. *)
Theorem X14_Id_is_made_once :
  forall (uuid : nat -> string) (k : nat) (b : Base),
    let '(i1, b1, k1) := Id uuid k b in
    (id b <> EmptyString -> i1 = id b /\ b1 = b /\ k1 = k)
    /\ (id b = EmptyString -> i1 = uuid k /\ k1 = S k)
    /\ id b1 = i1
    /\ (i1 <> EmptyString -> Id uuid k1 b1 = (i1, b1, k1))
    /\ name b1 = name b /\ addr b1 = addr b /\ DialOptions b1 = DialOptions b.
Proof.
  intros uuid k b. unfold Id.
  destruct (nonempty (id b)) eqn:Hid.
  - apply nonempty_true in Hid. split_all; try reflexivity; try tauto.
    intros _. apply nonempty_true in Hid. now rewrite Hid.
  - assert (Hempty : id b = EmptyString).
    { destruct (string_dec (id b) EmptyString) as [H | H]; [exact H |].
      apply nonempty_true in H. congruence. }
    split_all; try reflexivity; try tauto.
    intros Hne. cbn in Hne |- *. apply nonempty_true in Hne.
    now rewrite Hne.
Qed.

Lemma AppendToChains_fold (names : list string) (c : conn) :
  Chains (fold_left (fun c n => AppendToChains n c) names c)
    = Chains c ++ names
  /\ adapterAddr (fold_left (fun c n => AppendToChains n c) names c)
       = adapterAddr c.
Proof.
  revert c. induction names as [|n names IH]; intros c; cbn.
  - now rewrite app_nil_r.
  - destruct (IH (AppendToChains n c)) as (Hc & Ha).
    rewrite Hc, Ha. unfold Chains. cbn. now rewrite <- app_assoc.
Qed.

(** X15. The chain of a connection is the name of the adapter that made
    it followed by the names of the adapters appended since, in the order
    of the calls; the address stays that of the first adapter. *)
Theorem X15_chain_records_adapters_in_order :
  forall (a_Name a_Addr : string) (names : list string),
    Chains (fold_left (fun c n => AppendToChains n c) names
                      (NewConn a_Name a_Addr))
      = a_Name :: names
    /\ adapterAddr (fold_left (fun c n => AppendToChains n c) names
                              (NewConn a_Name a_Addr))
         = a_Addr.
Proof.
  intros a_Name a_Addr names.
  destruct (AppendToChains_fold names (NewConn a_Name a_Addr)) as (Hc & Ha).
  now rewrite Hc, Ha.
Qed.

Lemma autoClose_times_closed (inner : nat -> option error) (n : nat)
    (p : autoCloseProxyAdapter) :
  closeOnce p = true ->
  autoClose_times inner n p = (repeat (closeErr p) n, p).
Proof.
  intros Hc. induction n as [|n IH]; cbn; [reflexivity |].
  unfold autoClose. rewrite Hc, IH. reflexivity.
Qed.

(** X16. However often the self-closing adapter is closed, the adapter
    inside is closed exactly once, by the first call; every call returns
    what that one close returned, and the finalizer is cleared. *)
Theorem X16_autoClose_closes_once :
  forall (inner : nat -> option error) (n : nat),
    let '(es, p) := autoClose_times inner (S n) NewAutoCloseProxyAdapter in
    es = repeat (inner O) (S n)
    /\ inner_closes p = 1%nat
    /\ closeOnce p = true
    /\ finalizer p = false.
Proof.
  intros inner n. cbn.
  rewrite autoClose_times_closed by reflexivity. cbn. now split_all.
Qed.

End Base.

(** ** Properties of the Hysteria adapter *)

Section HysteriaProperties.
Import Hysteria.

Variable StringToBps : string -> Z.

(** X17. [Speed] fails exactly when the upload or the download string
    gives no bandwidth; it looks at the upload first, names the string it
    could not read, and returns zero for both speeds with the error. *)
Theorem X17_Speed_needs_both_directions :
  forall (c : HysteriaOption),
    let '(up, down, err) := Speed StringToBps c in
    (err = None <-> StringToBps (Up c) <> 0 /\ StringToBps (Down c) <> 0)
    /\ (err = None ->
        up = StringToBps (Up c) /\ down = StringToBps (Down c))
    /\ (err <> None -> up = 0 /\ down = 0)
    /\ (StringToBps (Up c) = 0 ->
        err = Some ("invaild upload speed: " ++ Up c)%string)
    /\ (StringToBps (Up c) <> 0 -> StringToBps (Down c) = 0 ->
        err = Some ("invaild download speed: " ++ Down c)%string).
Proof.
  intros c. unfold Speed.
  destruct (Z.eqb_spec (StringToBps (Up c)) 0) as [Hu | Hu];
    [| destruct (Z.eqb_spec (StringToBps (Down c)) 0) as [Hd | Hd]];
    split_all; try split; intros; try reflexivity; try discriminate;
    try congruence; try tauto.
Qed.

(** X18. [NewHysteria] applies the numeric speeds only after the two
    strings have passed [Speed]: an option whose upload or download string
    gives no bandwidth is refused even when [UpSpeed] and [DownSpeed] are
    set.  Once accepted, a numeric speed that is set replaces the string's
    value, as that many megabits per second in bytes per second whenever
    the product fits an [int]. *)
Theorem X18_numeric_speed_does_not_rescue_a_bad_string :
  forall (option : HysteriaOption),
    (StringToBps (Up option) = 0 \/ StringToBps (Down option) = 0 ->
     exists e, NewHysteria_speeds StringToBps option = inr e)
    /\ (StringToBps (Up option) <> 0 -> StringToBps (Down option) <> 0 ->
        exists up down,
          NewHysteria_speeds StringToBps option = inl (up, down)
          /\ (UpSpeed option = 0 -> up = StringToBps (Up option))
          /\ (DownSpeed option = 0 -> down = StringToBps (Down option))
          /\ (0 < UpSpeed option * mbpsToBps <= Int64.max_int ->
              up = UpSpeed option * mbpsToBps)
          /\ (0 < DownSpeed option * mbpsToBps <= Int64.max_int ->
              down = DownSpeed option * mbpsToBps)).
Proof.
  intros option. unfold NewHysteria_speeds, Speed.
  assert (Hconv : forall x, 0 < x * mbpsToBps <= Int64.max_int ->
                            negb (x =? 0) = true
                            /\ uint64 (int_mul x mbpsToBps) = x * mbpsToBps).
  { intros x Hx. split.
    - destruct (Z.eqb_spec x 0); [subst; lia | reflexivity].
    - unfold uint64, int_mul, Int64.wrap, Int64.max_int in *.
      rewrite (Z.mod_small (x * mbpsToBps + 2 ^ 63)) by lia.
      rewrite Z.mod_small; lia. }
  destruct (Z.eqb_spec (StringToBps (Up option)) 0) as [Hu | Hu];
    [| destruct (Z.eqb_spec (StringToBps (Down option)) 0) as [Hd | Hd]].
  - split; [intros _; eexists; reflexivity | intros H; now elim H].
  - split; [intros _; eexists; reflexivity | intros _ H; now elim H].
  - split; [intros [H | H]; contradiction |].
    intros _ _. eexists. eexists. split; [reflexivity |].
    split_all.
    + intros ->. reflexivity.
    + intros ->. reflexivity.
    + intros Hx. destruct (Hconv _ Hx) as (-> & ->). reflexivity.
    + intros Hx. destruct (Hconv _ Hx) as (-> & ->). reflexivity.
Qed.

End HysteriaProperties.

Section HysteriaSettings.
Import Hysteria.

Lemma uint64_range (z : Z) : 0 <= uint64 z < 2 ^ 64.
Proof. unfold uint64. apply Z.mod_pos_bound. lia. Qed.

(** X19. The receive windows [NewHysteria] gives to QUIC: the initial
    window never exceeds the maximal one.  Both pairs are the defaults
    when [ReceiveWindow] is zero, whatever [ReceiveWindowConn] says;
    otherwise the stream windows are [ReceiveWindowConn] and the
    connection windows are [ReceiveWindow], so that a zero
    [ReceiveWindowConn] beside a set [ReceiveWindow] gives stream windows
    of zero. *)
Theorem X19_receive_windows :
  forall (option : HysteriaOption),
    let w := NewHysteria_windows option in
    0 <= InitialStreamReceiveWindow w <= MaxStreamReceiveWindow w
    /\ 0 <= InitialConnectionReceiveWindow w <= MaxConnectionReceiveWindow w
    /\ MaxStreamReceiveWindow w < 2 ^ 64
    /\ MaxConnectionReceiveWindow w < 2 ^ 64
    /\ (ReceiveWindow option = 0 ->
        w = {| InitialStreamReceiveWindow := 1572864;
               MaxStreamReceiveWindow := 15728640;
               InitialConnectionReceiveWindow := 6710886;
               MaxConnectionReceiveWindow := 67108864 |})
    /\ (ReceiveWindow option <> 0 ->
        w = {| InitialStreamReceiveWindow :=
                 uint64 (ReceiveWindowConn option);
               MaxStreamReceiveWindow := uint64 (ReceiveWindowConn option);
               InitialConnectionReceiveWindow :=
                 uint64 (ReceiveWindow option);
               MaxConnectionReceiveWindow := uint64 (ReceiveWindow option) |})
    /\ (ReceiveWindow option <> 0 -> ReceiveWindowConn option = 0 ->
        MaxStreamReceiveWindow w = 0).
Proof.
  intros option. unfold NewHysteria_windows.
  pose proof (uint64_range (ReceiveWindowConn option)) as Hc.
  pose proof (uint64_range (ReceiveWindow option)) as Hr.
  destruct (Z.eqb_spec (ReceiveWindow option) 0) as [Hz | Hz]; cbn.
  - split_all; try reflexivity; try (intros; congruence);
      unfold DefaultStreamReceiveWindow, DefaultConnectionReceiveWindow;
      try lia; try (vm_compute; intuition congruence).
  - split_all; try lia; try (intros; congruence); try reflexivity.
    intros _ ->. reflexivity.
Qed.


(** X21. [ReadFrom] copies as much of the datagram as the buffer holds and
    says how much: the count is the smaller of the two lengths, the buffer
    keeps its length, starts with that much of the datagram and is
    untouched beyond; a datagram longer than the buffer is cut short
    without an error.  On an error nothing is copied.  [WriteTo] reports
    the whole of [p] written or an error, never a part. *)
Theorem X21_ReadFrom_truncates :
  forall (b p : bytes) (addrStr : string),
    (let '(n, addr, err, p') := ReadFrom (b, addrStr, None) p in
     n = Nat.min (List.length p) (List.length b)
     /\ err = None /\ addr = Some addrStr
     /\ List.length p' = List.length p
     /\ firstn n p' = firstn n b
     /\ skipn n p' = skipn n p
     /\ (List.length b <= List.length p -> firstn n p' = b)%nat)
    /\ (forall e, ReadFrom (b, addrStr, Some e) p = (O, None, Some e, p))
    /\ (forall sent,
          let '(n, err) := WriteTo sent p in
          (err = None /\ n = List.length p) \/ (err <> None /\ n = O)).
Proof.
  intros b p addrStr. split_all.
  - unfold ReadFrom, copy.
    set (n := Nat.min (List.length p) (List.length b)).
    assert (Hn : List.length (firstn n b) = n)
      by (rewrite length_firstn; subst n; lia).
    split_all; try reflexivity.
    + rewrite length_app, Hn, length_skipn. subst n. lia.
    + rewrite firstn_app, Hn, Nat.sub_diag. cbn. rewrite app_nil_r.
      rewrite <- Hn at 1. now rewrite firstn_all.
    + rewrite skipn_app, Hn, Nat.sub_diag. cbn.
      rewrite <- Hn at 1. now rewrite skipn_all.
    + intros Hle. rewrite firstn_app, Hn, Nat.sub_diag. cbn.
      rewrite app_nil_r. rewrite <- Hn at 1. rewrite firstn_all.
      apply firstn_all2. subst n. lia.
  - reflexivity.
  - intros [e|]; cbn; [right | left]; split; congruence.
Qed.

End HysteriaSettings.

(** ** The theorems at work on the concrete resource *)

#[local] Existing Instance Demo.params.

Import Demo.

(** C1 on a fetcher that holds the fingerprint of [ab]: the buffer [bb]
    has the same fingerprint and is taken for unchanged, through [loadBuf]
    and through [SideUpdate]; so is the source's [aab], through [Update],
    once its fingerprint is held. *)
Lemma C1_witness :
  let s := holding (MakeHash [a; b]) 2 (fresh steady minute None) in
  let s3 := holding (MakeHash [a; a; b]) 2 (fresh steady minute None) in
  Equal (hash (F s)) (MakeHash [b; b]) = true
  /\ fst (loadBuf env (Some [b; b]) (MakeHash [b; b]) true s) = (0, true, None)
  /\ fst (SideUpdate env (Some [b; b]) s) = (0, true, None)
  /\ rr_err (answer_of s3) = None
  /\ Equal (hash (F s3)) (rr_hash (answer_of s3)) = true
  /\ fst (Update env s3) = (0, true, None).
Proof.
  intros s s3.
  destruct (C1_same_fingerprint_is_unchanged env) as (H1 & H2 & H3).
  split; [reflexivity |]. split.
  { exact (proj1 (H1 s (Some [b; b]) (MakeHash [b; b]) true eq_refl
                     (fst (loadBuf env (Some [b; b]) (MakeHash [b; b]) true s))
                     (snd (loadBuf env (Some [b; b]) (MakeHash [b; b]) true s))
                     eq_refl)). }
  split.
  { exact (proj1 (H2 s (Some [b; b]) eq_refl
                     (fst (SideUpdate env (Some [b; b]) s))
                     (snd (SideUpdate env (Some [b; b]) s)) eq_refl)). }
  split; [reflexivity |]. split; [reflexivity |].
  exact (proj1 (H3 s3 eq_refl eq_refl
                   (fst (Update env s3)) (snd (Update env s3)) eq_refl)).
Defined.

(** C2 on a source whose mirror is read-only: the commit of the source's
    [aab] fails at the write, the fingerprint is still the zero one, and
    the next [Update] reads and parses [aab] again. *)
Lemma C2_witness :
  let s := fresh readonly minute None in
  let run := loadBuf env (Some [a; a; b]) (MakeHash [a; a; b]) true s in
  Equal (hash (F s)) (MakeHash [a; a; b]) = false
  /\ parser (F s) [a; a; b] = (2, None)
  /\ write_of s [a; a; b] = Some "read-only"%string
  /\ fst run = (0, false, Some "read-only"%string)
  /\ hash (F (snd run)) = 0
  /\ updatedAt (F (snd run)) = time.zero
  /\ exists evs,
       trace (W (snd (Update env (snd run)))) =
         trace (W (snd run)) ++ EvRead false 0 :: EvParse [a; a; b] :: evs.
Proof.
  intros s run.
  destruct (C2_failed_persist_commits_nothing env s [a; a; b]
              (MakeHash [a; a; b]) 2
              "read-only"%string eq_refl eq_refl eq_refl
              (fst run) (snd run) eq_refl) as (H1 & H2 & H3 & _ & Hnext).
  split; [reflexivity |]. split; [reflexivity |]. split; [reflexivity |].
  split; [exact H1 |]. split; [exact H2 |]. split; [exact H3 |].
  exact (Hnext eq_refl eq_refl eq_refl
               (fst (Update env (snd run))) (snd (Update env (snd run)))
               eq_refl).
Defined.

(** C3 on a source whose first read fails, and on the empty buffer, which
    the parser rejects. *)
Lemma C3_witness :
  let s := fresh remote minute None in
  let s2 := fresh steady minute None in
  let run2 := loadBuf env (Some []) (MakeHash []) true s2 in
  rr_err (answer_of s) = Some "unreachable"%string
  /\ fst (Update env s) = (0, false, Some "unreachable"%string)
  /\ attempt (backoff (F (snd (Update env s)))) = 1%N
  /\ Equal (hash (F s2)) (MakeHash []) = false
  /\ parser (F s2) [] = (0, Some "empty"%string)
  /\ fst run2 = (0, false, Some "empty"%string)
  /\ attempt (backoff (F (snd run2))) = 1%N.
Proof.
  intros s s2 run2.
  destruct (C3_failed_read_or_parse_counts_one_attempt env) as (H1 & H2).
  destruct (H1 s "unreachable"%string eq_refl
               (fst (Update env s)) (snd (Update env s)) eq_refl)
    as (Ha & Hb & _).
  destruct (H2 s2 [] (MakeHash []) true 0 "empty"%string eq_refl eq_refl
               (fst run2) (snd run2) eq_refl)
    as (Hc & Hd & _).
  repeat split; try assumption; reflexivity.
Defined.

(** C4 refuted as stated: after a failed parse has left the counter at
    one, [SideUpdate(nil)] returns without error and the counter is still
    one. *)
Lemma C4_counterexample :
  ~ (forall (s : State) (buf : slice) (r : Result) (s' : State),
        SideUpdate env buf s = (r, s') ->
        err_of r = None ->
        attempt (backoff (F s')) = 0%N).
Proof.
  intros H.
  pose (s := exec (SideUpdate env (Some [])) (fresh steady minute None)).
  specialize (H s None (fst (SideUpdate env None s))
                (snd (SideUpdate env None s)) eq_refl eq_refl).
  discriminate H.
Qed.

(** C4 on a fetcher with one failed attempt counted: the commit without a
    buffer keeps the counter, the commit of [a] zeroes it, and the [Update]
    that cannot read the source raises it. *)
Lemma C4_witness :
  let s := holding zeroHash 1 (fresh remote minute None) in
  let run1 := loadBuf env None (MakeHash []) true s in
  let run2 := loadBuf env (Some [a]) (MakeHash [a]) true s in
  err_of (fst run1) = None
  /\ attempt (backoff (F (snd run1))) = 1%N
  /\ err_of (fst run2) = None
  /\ attempt (backoff (F (snd run2))) = 0%N
  /\ attempt (backoff (F (snd (Update env s)))) = 2%N
  /\ exists e, err_of (fst (Update env s)) = Some e.
Proof.
  intros s run1 run2.
  destruct (C4_attempt_counter env) as (H1 & H2).
  destruct (H1 s None (MakeHash []) true (fst run1) (snd run1) eq_refl)
    as (Ha & _).
  destruct (H1 s (Some [a]) (MakeHash [a]) true (fst run2) (snd run2) eq_refl)
    as (Hb & _).
  destruct (H2 s (fst (Update env s)) (snd (Update env s)) eq_refl)
    as (_ & Hc).
  split; [reflexivity |].
  split; [destruct (Ha eq_refl) as [Hz | (_ & _ & _ & Hk)];
          [discriminate Hz | exact Hk] |].
  split; [reflexivity |].
  split; [destruct (Hb eq_refl) as [Hz | (Hn & _)];
          [exact Hz | discriminate Hn] |].
  assert (Hnz : attempt (backoff (F (snd (Update env s)))) <> 0%N)
    by discriminate.
  destruct (Hc Hnz) as [(Hs & e & He & _) | (Hr & _)];
    [| discriminate Hr].
  split; [exact Hs | now exists e].
Defined.

(** C5 on a remote source without a mirror whose first read fails: the
    goroutine is spawned all the same, unforced, and the error of the read
    is what [Initial] returns. *)
Lemma C5_witness :
  let s := fresh remote minute None in
  mirror (W s) = None
  /\ fst (Initial env s) = (0, Some "unreachable"%string)
  /\ trace (W (snd (Initial env s))) = [EvStat; EvRead false 0; EvGo false]
  /\ exists s0 ru s1 es,
       Update env s0 = (ru, s1)
       /\ startPullLoop env false s1 = (es, snd (Initial env s)).
Proof.
  intros s.
  destruct (C5_fallback_then_driver env s
              (fst (Initial env s)) (snd (Initial env s))
              (or_introl eq_refl) eq_refl)
    as (s0 & ru & s1 & es & pre & upd & Hpre & Hshape & Hu & Hupd & Hnr
        & Hst & Htr & Hr).
  split; [reflexivity |]. split; [reflexivity |]. split; [reflexivity |].
  exists s0, ru, s1, es. split; assumption.
Defined.



(** C7 on a fetcher with two failed attempts: the backoff delay of
    forty seconds replaces the full minute. *)
Lemma C7_witness :
  let s := holding zeroHash 1 (fresh remote minute None) in
  fst (pullLoop_enter env false s) <= minute
  /\ fst (pullLoop_tick env s) = 40 * Second.
Proof.
  intros s.
  destruct (C7_wait_at_most_interval env) as (H1 & H2).
  destruct (H1 s false (fst (pullLoop_enter env false s))
               (snd (pullLoop_enter env false s)) eq_refl) as (Ha & _).
  destruct (H2 s (fst (pullLoop_tick env s)) (snd (pullLoop_tick env s))
               eq_refl) as (_ & Hb & _).
  split; [exact Ha | rewrite Hb; reflexivity].
Defined.

(** C8 on the buffer [a]. *)
Lemma C8_witness :
  let s := fresh steady minute None in
  let run2 := SideUpdate env (Some [a]) (snd pushed_a) in
  SideUpdate env (Some [a]) s = pushed_a
  /\ err_of (fst pushed_a) = None
  /\ unchanged_of (fst run2) = true
  /\ err_of (fst run2) = None.
Proof.
  intros s run2.
  assert (H1 : SideUpdate env (Some [a]) s = (fst pushed_a, snd pushed_a))
    by reflexivity.
  destruct (C8_SideUpdate_idempotent env s (Some [a])
              (fst pushed_a) (snd pushed_a) (fst run2) (snd run2)
              H1 eq_refl eq_refl) as (Ha & Hb & _).
  split; [reflexivity |]. split; [reflexivity |]. split; assumption.
Defined.

(** C10 on the buffer [a]: the value [1] comes with a commit. *)
Lemma C10_witness :
  let s := fresh steady minute None in
  let run := SideUpdate env (Some [a]) s in
  value_of (fst run) <> Empty
  /\ unchanged_of (fst run) = false
  /\ err_of (fst run) = None
  /\ hash (F (snd run)) = MakeHash [a].
Proof.
  intros s run.
  destruct (C10_value_is_zero_unless_committed env) as (_ & H2 & _).
  destruct (H2 s (Some [a]) (fst run) (snd run) eq_refl) as (_ & Hv).
  assert (Hnz : value_of (fst run) <> Empty) by discriminate.
  destruct (Hv Hnz) as (Ha & Hb & Hc & _).
  split; [exact Hnz |]. split; [exact Ha |]. split; [exact Hb | exact Hc].
Defined.



(** ** The further properties at work on the concrete resource *)

Import Fixtures.


(** X2 on the remote source with a fresh mirror: the value of [ab], dated
    as the mirror. *)
Lemma X2_witness :
  let s := fresh steady minute mirror_fresh in
  fst (Initial env s) = (1, None)
  /\ updatedAt (F (snd (Initial env s))) = 99 * Second
  /\ hash (F (snd (Initial env s))) = 3.
Proof.
  intros s.
  destruct (X2_bootstrap_from_mirror env s
              {| m_data := Some [a; b]; m_modTime := 99 * Second |} [a; b] 1
              eq_refl eq_refl eq_refl eq_refl
              (fst (Initial env s)) (snd (Initial env s)) eq_refl)
    as (Hr & Hu & Hh & _).
  split; [exact Hr |]. split; [exact Hu | exact Hh].
Defined.

(** X3 on the local file when no watcher can be created. *)
Lemma X3_witness :
  let s := fresh local minute mirror_fresh in
  start_error env_nowatch (F s) = Some "too many open files"%string
  /\ fst (Initial env_nowatch s) = (0, Some "too many open files"%string)
  /\ watching (F (snd (Initial env_nowatch s))) = false.
Proof.
  intros s.
  destruct (X3_watcher_error_aborts_Initial env_nowatch s
              "too many open files"%string
              (fst (Initial env_nowatch s)) (snd (Initial env_nowatch s))
              eq_refl eq_refl) as (Hr & Hw & _).
  split; [reflexivity |]. split; [exact Hr | exact Hw].
Defined.

(** X4 on the remote source with interval zero. *)
Lemma X4_witness :
  let s := fresh steady 0 None in
  watcher (F (snd (Initial env s))) = None
  /\ loops (W (snd (Initial env s))) = [].
Proof.
  intros s.
  assert (Ht : v_Type (vehicle (F s)) <> File) by discriminate.
  assert (Hi : interval (F s) <= 0) by (cbn; lia).
  destruct (X4_no_interval_no_background env s
              (fst (Initial env s)) (snd (Initial env s))
              Ht Hi eq_refl eq_refl eq_refl) as (Hw & Hl & _).
  split; [exact Hw | exact Hl].
Defined.

(** X5 on the local file. *)
Lemma X5_witness :
  let s := fresh local minute mirror_fresh in
  v_Type (vehicle (F s)) = File
  /\ mirror (W (snd (Update env s))) = mirror_fresh.
Proof.
  intros s.
  destruct (X5_file_vehicle_is_never_mirrored env s
              (fst (Update env s)) (snd (Update env s)) eq_refl eq_refl)
    as (Hm & _).
  split; [reflexivity | exact Hm].
Defined.

(** X6 on the buffer [a]: a second fetcher bootstraps its value from the
    mirror. *)
Lemma X6_witness :
  let s := fresh steady minute None in
  SideUpdate env (Some [a]) s = pushed_a
  /\ mirror_buf (snd pushed_a) = Some [a]
  /\ fst (Initial env second) = (1, None).
Proof.
  intros s.
  assert (H1 : SideUpdate env (Some [a]) s = (fst pushed_a, snd pushed_a))
    by reflexivity.
  destruct (X6_persist_then_bootstrap env s (Some [a])
              (fst pushed_a) (snd pushed_a) H1 eq_refl eq_refl)
    as (b0 & Hb & Hm & Hboot).
  injection Hb as <-.
  split; [reflexivity |]. split; [exact Hm |].
  exact (proj1 (Hboot (F second) (fst (Initial env second))
                      (snd (Initial env second))
                      eq_refl eq_refl eq_refl eq_refl)).
Defined.

(** X7 on the buffer [a]. *)
Lemma X7_witness :
  let s := fresh steady minute None in
  fst (SideUpdate env (Some [a]) (exec Close s)) = (1, false, None).
Proof.
  intros s.
  destruct (X7_SideUpdate_ignores_Close env s (Some [a])
              (fst (SideUpdate env (Some [a]) s))
              (fst (SideUpdate env (Some [a]) (exec Close s)))
              (snd (SideUpdate env (Some [a]) s))
              (snd (SideUpdate env (Some [a]) (exec Close s)))
              eq_refl eq_refl) as (Hr & _).
  rewrite Hr. reflexivity.
Defined.

(** X8 on the commit of [a]. *)
Lemma X8_witness :
  let s := fresh steady minute None in
  let run1 := loadBuf env (Some [a]) (MakeHash [a]) true s in
  exists evs,
    trace (W (snd run1)) = trace (W s) ++ evs
    /\ filter is_OnUpdate evs = [EvOnUpdate 1].
Proof.
  intros s run1.
  destruct (X8_callback_goes_with_commit env s (Some [a]) (MakeHash [a]) true
              (fst run1) (snd run1) eq_refl)
    as (evs & Htr & Hcb & _).
  exists evs. split; [exact Htr | exact Hcb].
Defined.

(** X9 on a fetcher that has never been updated. *)
Lemma X9_witness :
  let s := fresh steady minute None in
  0 < interval (F s)
  /\ interval (F s) < Sub (clock env (clock_reads (W s))) (updatedAt (F s))
  /\ fst (pullLoop_enter env true s) < 0.
Proof.
  intros s.
  assert (H1 : 0 < interval (F s)) by reflexivity.
  assert (H2 : interval (F s)
               < Sub (clock env (clock_reads (W s))) (updatedAt (F s)))
    by reflexivity.
  destruct (X9_stale_fetcher_polls_at_once env s true
              (fst (pullLoop_enter env true s))
              (snd (pullLoop_enter env true s)) H1 H2 eq_refl) as (Hd & _).
  split; [exact H1 |]. split; [exact H2 | exact Hd].
Defined.

(** X10 on the remote source whose first read fails. *)
Lemma X10_witness :
  let s := fresh remote minute None in
  fst (Initial env s) = (0, Some "unreachable"%string)
  /\ loops (W (snd (Initial env s))) = [Spawned false]
  /\ exists s'' d,
       step env (LoopStart 0) (snd (Initial env s)) = Some s''
       /\ d < 0.
Proof.
  intros s.
  assert (Ht : v_Type (vehicle (F s)) <> File) by discriminate.
  assert (Hi : 0 < interval (F s) < Int64.max_int) by (split; reflexivity).
  assert (Hc : forall k, 0 <= clock env k)
    by (intros k; change (0 <= (100 + Z.of_nat k) * Second);
        unfold Second; lia).
  destruct (X10_failed_bootstrap_retries_at_once env s
              "unreachable"%string
              (fst (Initial env s)) (snd (Initial env s))
              eq_refl eq_refl eq_refl Ht Hi eq_refl Hc eq_refl)
    as (Hr & _ & Hl & s'' & d & Hstep & _ & Hd & _).
  split; [exact Hr |]. split; [exact Hl |].
  exists s'', d. split; [exact Hstep | exact Hd].
Defined.

(** X12 on a watched file that cannot be read, notified twice. *)
Lemma X12_witness :
  let s := watched (fresh broken_file minute mirror_fresh) in
  let s' := match run env (repeat Notify 2) s with
            | Some s' => s'
            | None => s
            end in
  run env (repeat Notify 2) s = Some s'
  /\ attempt (backoff (F s')) = 2%N
  /\ hash (F s') = hash (F s).
Proof.
  intros s s'.
  assert (Hrun : run env (repeat Notify 2) s = Some s')
    by (vm_compute; reflexivity).
  assert (Hfail : forall k c h,
             rr_err (v_Read (vehicle (F s)) k c h) <> None)
    by (intros k c h; discriminate).
  destruct (X12_failed_notifications_count env 2 s s' Hfail Hrun)
    as (Ha & Hh & _).
  split; [exact Hrun |]. split; [exact Ha | exact Hh].
Defined.

(** X22 on the remote source over a mirror that holds the empty buffer,
    which the parser rejects. *)
Lemma X22_witness :
  let s := fresh steady minute
             (Some {| m_data := Some []; m_modTime := 99 * Second |}) in
  fst (Initial env s) = (2, None)
  /\ mirror_buf (snd (Initial env s)) = Some [a; a; b]
  /\ attempt (backoff (F (snd (Initial env s)))) = 0%N.
Proof.
  intros s.
  assert (Ht : v_Type (vehicle (F s)) <> File) by discriminate.
  destruct (X22_bad_mirror_is_replaced env s
              {| m_data := Some []; m_modTime := 99 * Second |} [] 0
              "empty"%string [a; a; b] 2
              eq_refl eq_refl eq_refl eq_refl eq_refl eq_refl eq_refl eq_refl
              Ht eq_refl
              (fst (Initial env s)) (snd (Initial env s)) eq_refl)
    as (Hr & Hm & _ & Ha).
  split; [exact Hr |]. split; [exact Hm | exact Ha].
Defined.

(** X23 on the source whose first read fails, and on the source whose
    mirror cannot be written. *)
Lemma X23_witness :
  let s := fresh remote minute None in
  let s2 := fresh readonly minute None in
  fst (pullLoop_tick env s) = 20 * Second
  /\ err_of (fst (Update env s2)) = Some "read-only"%string
  /\ fst (pullLoop_tick env s2) = minute.
Proof.
  intros s s2.
  destruct (X23_only_read_and_parse_failures_shorten_the_wait env s
              (fst (pullLoop_tick env s)) (snd (pullLoop_tick env s)) eq_refl)
    as (H1 & _).
  destruct (X23_only_read_and_parse_failures_shorten_the_wait env s2
              (fst (pullLoop_tick env s2)) (snd (pullLoop_tick env s2))
              eq_refl)
    as (_ & H2).
  split; [exact (H1 "unreachable"%string eq_refl) |].
  split; [reflexivity |].
  apply H2; [reflexivity |].
  right. exists [a; a; b], 2. split; reflexivity.
Defined.
